(** * planetastic: the dump1090 to Meshtastic connector

    A shallow embedding of [planetastic.py]: the SBS-1 line parser
    ([parse_adsb_message]), the per-aircraft merge and the rate-limited
    dispatch ([process_adsb_message]), the message formatter
    ([format_meshtastic_message]) and the reconnecting stream reader
    ([connect_to_dump1090]).

    Conventions of the model:
    - a Python dictionary is a finite map with string keys, a Python
      object a tagged union ([value]), a string a sequence of code points
      below 256;
    - an exception is an explicit outcome ([Raised]); the tables
      [aircraft_db] and [last_sent_time] are threaded through
      [process_adsb_message] as a state record, and what a call did to
      them before it raised stays done;
    - the numeric builtins of the interpreter ([int], [float], [abs],
      [format]) are a type class, with binary64 arithmetic as its
      reference instance;
    - a clock reading is a float, as [time.time()] returns it, and the
      update interval an int; the difference of two readings is rounded
      as the float subtraction rounds it;
    - a sink returns when it is called, and what it is sent is recorded;
    - the network is a script of sessions, one for each pass of the
      reader's loop, and what the reader does is a list of events. *)

From Stdlib Require Import String Ascii ZArith QArith List Lia.
From stdpp Require Import base gmap strings list fin_maps pretty.

Local Open Scope string_scope.
Local Open Scope list_scope.
Local Open Scope Z_scope.

(** ** Text: the [str] methods the program calls

    A string is a sequence of code points below 256. *)

Module Str.

(** [str.isspace] on one code point below 256: tab to carriage return,
    the four separators 0x1c-0x1f, space, NEL (0x85) and no-break space
    (0xa0). This is the set [str.strip()] removes. *)
Definition is_space (c : ascii) : bool :=
  let n := N_of_ascii c in
  ((9 <=? n)%N && (n <=? 13)%N) || ((28 <=? n)%N && (n <=? 32)%N)
  || (n =? 133)%N || (n =? 160)%N.

Fixpoint lstrip (s : string) : string :=
  match s with
  | String c s' => if is_space c then lstrip s' else s
  | EmptyString => EmptyString
  end.

Fixpoint rstrip (s : string) : string :=
  match s with
  | EmptyString => EmptyString
  | String c s' =>
      match rstrip s' with
      | EmptyString => if is_space c then EmptyString else String c EmptyString
      | r => String c r
      end
  end.

(** [s.strip()] *)
Definition strip (s : string) : string := lstrip (rstrip s).

(** [s.split(sep)] for a one-character separator: never the empty list. *)
Fixpoint split (sep : ascii) (s : string) : list string :=
  match s with
  | EmptyString => [EmptyString]
  | String c s' =>
      if Ascii.eqb c sep then EmptyString :: split sep s'
      else match split sep s' with
           | f :: fs => String c f :: fs
           | [] => [String c EmptyString]
           end
  end.

(** Number of occurrences of a character. *)
Fixpoint count (c : ascii) (s : string) : nat :=
  match s with
  | EmptyString => 0%nat
  | String d s' => ((if Ascii.eqb d c then 1 else 0) + count c s')%nat
  end.

(** Apply [f] to the last element of a list. *)
Fixpoint map_last {A : Type} (f : A -> A) (l : list A) : list A :=
  match l with
  | [] => []
  | [x] => [f x]
  | x :: l' => x :: map_last f l'
  end.

End Str.

(** ** Python values and exceptions *)

Inductive exn : Type :=
  | ValueError
  | TypeError
  | OverflowError
  | AttributeError.

Inductive outcome (A : Type) : Type :=
  | Returned (a : A)
  | Raised (e : exn).
Arguments Returned {A} a.
Arguments Raised {A} e.

#[global] Instance outcome_ret : MRet outcome := @Returned.
#[global] Instance outcome_bind : MBind outcome := fun A B k x =>
  match x with
  | Returned a => k a
  | Raised e => Raised e
  end.

(** A [for] loop over a list whose body may raise. *)
Fixpoint for_each {A S : Type} (body : S -> A -> outcome S) (xs : list A) (s : S)
  : outcome S :=
  match xs with
  | [] => Returned s
  | x :: xs' => s' ← body s x; for_each body xs' s'
  end.

(** A Python object, over the type [F] of floats. *)
Inductive value (F : Type) : Type :=
  | VNone
  | VStr (s : string)
  | VInt (z : Z)
  | VFloat (f : F)
  | VBool (b : bool).
Arguments VNone {F}.
Arguments VStr {F} s.
Arguments VInt {F} z.
Arguments VFloat {F} f.
Arguments VBool {F} b.

(** The interpreter's numeric builtins. The program only calls them; what
    they compute is fixed by the interpreter, so the development is
    parametric in them and a reference instance ([Float64.builtins]) is
    given further down for evaluation. [None] stands for the builtin
    raising (ValueError for the two parsers and for [int_to_str],
    OverflowError for [float_of_int]). *)
Class PyBuiltins (pyfloat : Type) : Type := {
  int_of_str : string -> option Z;        (* int(s), s a str *)
  float_of_str : string -> option pyfloat; (* float(s), s a str *)
  int_of_float : pyfloat -> outcome Z;     (* int(x), x a float *)
  float_of_int : Z -> option pyfloat;      (* float(n), n an int *)
  float_zero : pyfloat;                    (* the literal 0.0 *)
  float_truthy : pyfloat -> bool;          (* bool(x) *)
  float_abs : pyfloat -> pyfloat;          (* abs(x) *)
  float_ge0 : pyfloat -> bool;             (* x >= 0 *)
  float_sub : pyfloat -> pyfloat -> pyfloat; (* x - y *)
  float_gt_int : pyfloat -> Z -> bool;     (* x > n, n an int *)
  float_fmt2 : pyfloat -> string;          (* format(x, '.2f') *)
  float_repr : pyfloat -> string;          (* format(x, '') *)
  int_to_str : Z -> option string          (* format(n, ''), n an int *)
}.

(** ** A reference instance of the builtins

    IEEE 754 binary64 values in exact integer arithmetic, the numeral
    grammars of [int] and [float] on code points below 256, and the two
    renderings of a float the program uses. *)

Module Float64.

(** [Fin neg m e] is [(-1)^neg * m * 2^e], with [0 <= m < 2^53] and
    [-1074 <= e <= 971], and [2^52 <= m] unless [e = -1074], so that
    equal numbers have equal representations. *)
Inductive t : Type :=
  | Nan
  | Inf (neg : bool)
  | Fin (neg : bool) (m : Z) (e : Z).

(** [n / d] rounded to the nearest integer, ties to even ([0 <= n], [0 < d]). *)
Definition div_half_even (n d : Z) : Z :=
  let q := n / d in
  let r := n mod d in
  if 2 * r <? d then q
  else if d <? 2 * r then q + 1
  else if Z.even q then q else q + 1.

(** [n / (d * 2^e)] as a fraction of integers. *)
Definition scaled (n d e : Z) : Z * Z :=
  if 0 <=? e then (n, d * 2 ^ e) else (n * 2 ^ (- e), d).

(** The binary64 value nearest to [(-1)^neg * n / d] ([0 <= n], [0 < d]),
    ties to even; an infinity when it is out of range. *)
Definition of_ratio (neg : bool) (n d : Z) : t :=
  if n =? 0 then Fin neg 0 (-1074)
  else
    let e0 := Z.log2 n - Z.log2 d - 52 in
    let e1 := let '(a, b) := scaled n d e0 in
              if a / b <? 2 ^ 52 then e0 - 1 else e0 in
    let e := Z.max e1 (-1074) in
    let '(a, b) := scaled n d e in
    let m := div_half_even a b in
    let '(m, e) := if m =? 2 ^ 53 then (2 ^ 52, e + 1) else (m, e) in
    if 971 <? e then Inf neg else Fin neg m e.

(** [(-1)^neg * digits * 10^exp10] *)
Definition of_decimal (neg : bool) (digits exp10 : Z) : t :=
  if 0 <=? exp10 then of_ratio neg (digits * 10 ^ exp10) 1
  else of_ratio neg digits (10 ^ (- exp10)).

Definition eqb (x y : t) : bool :=
  match x, y with
  | Fin s m e, Fin s' m' e' => Bool.eqb s s' && (m =? m') && (e =? e')
  | Inf s, Inf s' => Bool.eqb s s'
  | _, _ => false
  end.

(** *** Numerals *)

Definition is_digit (c : ascii) : bool :=
  let n := N_of_ascii c in (48 <=? n)%N && (n <=? 57)%N.

Definition digit_val (c : ascii) : Z := Z.of_N (N_of_ascii c) - 48.

(** The white space [int] and [float] skip around a numeral: on code
    points below 128 the C set (tab to carriage return, and space), above
    it NEL and no-break space. *)
Definition is_num_space (c : ascii) : bool :=
  let n := N_of_ascii c in
  ((9 <=? n)%N && (n <=? 13)%N) || (n =? 32)%N || (n =? 133)%N || (n =? 160)%N.

Fixpoint lskip (s : string) : string :=
  match s with
  | String c s' => if is_num_space c then lskip s' else s
  | EmptyString => EmptyString
  end.

Fixpoint rskip (s : string) : string :=
  match s with
  | EmptyString => EmptyString
  | String c s' =>
      match rskip s' with
      | EmptyString => if is_num_space c then EmptyString else String c EmptyString
      | r => String c r
      end
  end.

(** The rest of a [digitpart] after one of its digits: more digits, each
    optionally preceded by one underscore. Returns the value, the number
    of digits and the unread text. *)
Fixpoint digits_from (acc cnt : Z) (s : string) : Z * Z * string :=
  match s with
  | EmptyString => (acc, cnt, EmptyString)
  | String c s' =>
      if is_digit c then digits_from (10 * acc + digit_val c) (cnt + 1) s'
      else if Ascii.eqb c "_" then
        match s' with
        | String c2 s'' =>
            if is_digit c2 then digits_from (10 * acc + digit_val c2) (cnt + 1) s''
            else (acc, cnt, s)
        | EmptyString => (acc, cnt, s)
        end
      else (acc, cnt, s)
  end.

(** [digitpart ::= digit (["_"] digit)*], read as a continuation of the
    digits already in [acc]. *)
Definition digitpart_from (acc : Z) (s : string) : option (Z * Z * string) :=
  match s with
  | String c s' =>
      if is_digit c then Some (digits_from (10 * acc + digit_val c) 1 s') else None
  | EmptyString => None
  end.

Definition digitpart : string -> option (Z * Z * string) := digitpart_from 0.

(** An optional sign. *)
Definition sign (s : string) : bool * string :=
  match s with
  | String c s' =>
      if Ascii.eqb c "-" then (true, s')
      else if Ascii.eqb c "+" then (false, s')
      else (false, s)
  | EmptyString => (false, s)
  end.

(** The default limit on the digits of a decimal integer numeral. *)
Definition MAX_STR_DIGITS : Z := 4300.

(** [int(s)] in base 10. *)
Definition parse_int (s : string) : option Z :=
  let '(neg, body) := sign (lskip (rskip s)) in
  match digitpart body with
  | Some (v, cnt, EmptyString) =>
      if MAX_STR_DIGITS <? cnt then None
      else Some (if neg then - v else v)
  | _ => None
  end.

Definition lower (c : ascii) : ascii :=
  let n := N_of_ascii c in
  if (65 <=? n)%N && (n <=? 90)%N then ascii_of_N (n + 32) else c.

Fixpoint lowercase (s : string) : string :=
  match s with
  | EmptyString => EmptyString
  | String c s' => String (lower c) (lowercase s')
  end.

(** [number ::= [digitpart] "." digitpart | digitpart ["."]]: the digits
    read as one integer, the number of them after the point, the rest. *)
Definition number (s : string) : option (Z * Z * string) :=
  match digitpart s with
  | Some (ip, _, String "." rest) =>
      match digitpart_from ip rest with
      | Some r => Some r
      | None => Some (ip, 0, rest)
      end
  | Some (ip, _, rest) => Some (ip, 0, rest)
  | None =>
      match s with
      | String "." rest => digitpart rest
      | _ => None
      end
  end.

(** [exponent ::= ("e" | "E") [sign] digitpart], optional: the exponent
    (0 when there is none) and the rest; [None] for a dangling "e". *)
Definition exponent (s : string) : option (Z * string) :=
  match s with
  | String c s' =>
      if Ascii.eqb (lower c) "e" then
        let '(neg, body) := sign s' in
        match digitpart body with
        | Some (x, _, rest) => Some (if neg then - x else x, rest)
        | None => None
        end
      else Some (0, s)
  | EmptyString => Some (0, s)
  end.

(** [float(s)] *)
Definition parse_float (s : string) : option t :=
  let '(neg, body) := sign (lskip (rskip s)) in
  let word := lowercase body in
  if String.eqb word "inf" || String.eqb word "infinity" then Some (Inf neg)
  else if String.eqb word "nan" then Some Nan
  else
    match number body with
    | Some (digits, k, rest) =>
        match exponent rest with
        | Some (x, EmptyString) => Some (of_decimal neg digits (x - k))
        | _ => None
        end
    | None => None
    end.

(** *** Conversions and tests *)

(** [int(x)]: truncation towards zero. *)
Definition to_int (x : t) : outcome Z :=
  match x with
  | Nan => Raised ValueError
  | Inf _ => Raised OverflowError
  | Fin neg m e =>
      let a := if 0 <=? e then m * 2 ^ e else m / 2 ^ (- e) in
      Returned (if neg then - a else a)
  end.

(** [float(n)] *)
Definition of_int (n : Z) : option t :=
  match of_ratio (n <? 0) (Z.abs n) 1 with
  | Fin neg m e => Some (Fin neg m e)
  | _ => None
  end.

Definition zero : t := Fin false 0 (-1074).

(** A clock reading of [n] whole seconds: [float(n)], for [0 <= n]. *)
Definition seconds (n : Z) : t := of_ratio false n 1.

Definition nonzero (x : t) : bool :=
  match x with
  | Fin _ m _ => negb (m =? 0)
  | _ => true
  end.

Definition abs (x : t) : t :=
  match x with
  | Nan => Nan
  | Inf _ => Inf false
  | Fin _ m e => Fin false m e
  end.

Definition ge0 (x : t) : bool :=
  match x with
  | Nan => false
  | Inf neg => negb neg
  | Fin neg m _ => negb neg || (m =? 0)
  end.

(** *** Arithmetic and comparison *)

(** [x - y]: the exact difference rounded to the nearest binary64 value,
    ties to even. A difference of zero is [-0.0] only for [-0.0 - 0.0]. *)
Definition sub (x y : t) : t :=
  match x, y with
  | Nan, _ | _, Nan => Nan
  | Inf a, Inf b => if Bool.eqb a b then Nan else Inf a
  | Inf a, Fin _ _ _ => Inf a
  | Fin _ _ _, Inf b => Inf (negb b)
  | Fin a m e, Fin b m' e' =>
      let e0 := Z.min e e' in
      let n := (if a then - m else m) * 2 ^ (e - e0)
               - (if b then - m' else m') * 2 ^ (e' - e0) in
      if n =? 0 then Fin (a && negb b) 0 (-1074)
      else let '(p, q) := scaled (Z.abs n) 1 (- e0) in of_ratio (n <? 0) p q
  end.

(** [x > n] for an int [n]: the two are compared as exact numbers. *)
Definition gt_int (x : t) (n : Z) : bool :=
  match x with
  | Nan => false
  | Inf neg => negb neg
  | Fin neg m e =>
      let v := if neg then - m else m in
      if 0 <=? e then n <? v * 2 ^ e else n * 2 ^ (- e) <? v
  end.

(** The number a finite float stands for. *)
Definition exact (x : t) : Q :=
  match x with
  | Fin neg m e => inject_Z (if neg then - m else m) * Qpower 2 e
  | _ => 0
  end.

(** *** Renderings *)

Definition two_digits (n : Z) : string :=
  if n <? 10 then "0" +:+ pretty n else pretty n.

(** [format(x, '.2f')]: the exact value rounded to two decimals, ties to
    even. *)
Definition fmt2 (x : t) : string :=
  match x with
  | Nan => "nan"
  | Inf neg => if neg then "-inf" else "inf"
  | Fin neg m e =>
      let '(a, b) := scaled (100 * m) 1 (- e) in
      let r := div_half_even a b in
      (if neg then "-" else "") +:+ pretty (r / 100) +:+ "." +:+ two_digits (r mod 100)
  end.

(** The decimal exponent [E] with [10^E <= m * 2^e < 10^(E+1)] ([0 < m]),
    found from below. *)
Fixpoint exp10_search (fuel : nat) (m e E : Z) : Z :=
  match fuel with
  | O => E
  | S fuel' =>
      let '(a, b) := scaled m 1 (- e) in
      let '(a, b) := if 0 <=? E + 1 then (a, b * 10 ^ (E + 1)) else (a * 10 ^ (- (E + 1)), b) in
      if b <=? a then exp10_search fuel' m e (E + 1) else E
  end.

Definition exp10 (m e : Z) : Z :=
  (* log10 2 > 0.30102, so 10^E0 <= 2^(log2 m + e) <= m * 2^e *)
  let l := Z.log2 m + e in
  let E0 := (if 0 <=? l then l * 30102 / 100000 else - ((- l) * 30103 / 100000) - 1) in
  exp10_search 8 m e E0.

(** The candidates with [p] significant digits on either side of
    [m * 2^e]: those that read back as the same float, nearest first (of two
    equally near, the even one first). *)
Definition candidates (m e E : Z) (p : Z) : list Z :=
  let '(a, b) := scaled m 1 (- e) in
  let sh := E - p + 1 in
  let '(a, b) := if 0 <=? sh then (a, b * 10 ^ sh) else (a * 10 ^ (- sh), b) in
  let lo := a / b in
  let r := a mod b in
  let down := (2 * r <? b) || ((2 * r =? b) && Z.even lo) in
  let ordered := if down then [lo; lo + 1] else [lo + 1; lo] in
  filter (fun c => eqb (of_decimal false c sh) (Fin false m e)) ordered.

(** The shortest digit string that reads back as [m * 2^e], with the
    exponent of its last digit. *)
Fixpoint shortest (fuel : nat) (m e E p : Z) : Z * Z :=
  match fuel with
  | O => (m, e)
  | S fuel' =>
      match candidates m e E p with
      | c :: _ => (c, E - p + 1)
      | [] => shortest fuel' m e E (p + 1)
      end
  end.

Fixpoint strip_zeros (fuel : nat) (c sh : Z) : Z * Z :=
  match fuel with
  | O => (c, sh)
  | S fuel' => if (c mod 10 =? 0) && negb (c =? 0) then strip_zeros fuel' (c / 10) (sh + 1) else (c, sh)
  end.

Fixpoint zeros (n : nat) : string :=
  match n with
  | O => ""
  | S n' => "0" +:+ zeros n'
  end.

(** [repr(x)], which is also [format(x, '')]: the shortest digits, in
    positional notation when the decimal point falls within them or up to
    four zeros before or sixteen digits in all, otherwise in scientific
    notation. *)
Definition repr (x : t) : string :=
  match x with
  | Nan => "nan"
  | Inf neg => if neg then "-inf" else "inf"
  | Fin neg m e =>
      let sgn := if neg then "-" else "" in
      if m =? 0 then sgn +:+ "0.0"
      else
        let '(c, sh) := shortest 17 m e (exp10 m e) 1 in
        let '(c, sh) := strip_zeros 20 c sh in
        let ds := pretty c in
        let n := Z.of_nat (String.length ds) in
        let decpt := n + sh in
        if (decpt <=? -4) || (16 <? decpt) then
          let x10 := decpt - 1 in
          let mant := match ds with
                      | String d EmptyString => String d EmptyString
                      | String d rest => String d ("." +:+ rest)
                      | EmptyString => ""
                      end in
          sgn +:+ mant +:+ "e" +:+ (if x10 <? 0 then "-" else "+") +:+ two_digits (Z.abs x10)
        else if decpt <=? 0 then
          sgn +:+ "0." +:+ zeros (Z.to_nat (- decpt)) +:+ ds
        else if n <=? decpt then
          sgn +:+ ds +:+ zeros (Z.to_nat (decpt - n)) +:+ ".0"
        else
          sgn +:+ String.substring 0 (Z.to_nat decpt) ds +:+ "."
              +:+ String.substring (Z.to_nat decpt) (Z.to_nat (n - decpt)) ds
  end.

(** [format(n, '')] for an int: the decimal digits, ValueError above the
    digit limit. *)
Definition int_repr (n : Z) : option string :=
  let ds := pretty (Z.abs n) in
  if MAX_STR_DIGITS <? Z.of_nat (String.length ds) then None else Some (pretty n).

#[global] Instance builtins : PyBuiltins t := {
  int_of_str := parse_int;
  float_of_str := parse_float;
  int_of_float := to_int;
  float_of_int := of_int;
  float_zero := zero;
  float_truthy := nonzero;
  float_abs := abs;
  float_ge0 := ge0;
  float_sub := sub;
  float_gt_int := gt_int;
  float_fmt2 := fmt2;
  float_repr := repr;
  int_to_str := int_repr
}.

End Float64.

Section Program.

Context {pyfloat : Type} {B : PyBuiltins pyfloat}.

Local Abbreviation value := (value pyfloat).

(** Truth value of an object, as [if x:] and [not x] test it. *)
Definition truthy (v : value) : bool :=
  match v with
  | VNone => false
  | VStr s => negb (String.eqb s "")
  | VInt z => negb (z =? 0)
  | VFloat f => float_truthy f
  | VBool b => b
  end.

(** [int(v)] *)
Definition py_int (v : value) : outcome Z :=
  match v with
  | VNone => Raised TypeError
  | VStr s => match int_of_str s with Some z => Returned z | None => Raised ValueError end
  | VInt z => Returned z
  | VFloat f => int_of_float f
  | VBool b => Returned (Z.b2z b)
  end.

(** [float(v)] *)
Definition py_float (v : value) : outcome pyfloat :=
  match v with
  | VNone => Raised TypeError
  | VStr s => match float_of_str s with Some f => Returned f | None => Raised ValueError end
  | VInt z => match float_of_int z with Some f => Returned f | None => Raised OverflowError end
  | VFloat f => Returned f
  | VBool b => match float_of_int (Z.b2z b) with Some f => Returned f | None => Raised OverflowError end
  end.

(** A dictionary keyed by field name. *)
Local Abbreviation record := (gmap string value).

(** [d.get(key)]: [None] when the key is missing. *)
Definition get (d : record) (key : string) : value := default VNone (d !! key).

(** ** The SBS-1 parser *)

Definition SBS1_FIELDS : list string :=
  [ "message_type"; "transmission_type"; "session_id"; "aircraft_id";
    "hex_ident"; "flight_id"; "generated_date"; "generated_time";
    "logged_date"; "logged_time"; "callsign"; "altitude";
    "ground_speed"; "track"; "lat"; "lon"; "vertical_rate";
    "squawk"; "alert"; "emergency"; "spi"; "is_on_ground" ].

Definition INT_FIELDS : list string :=
  [ "transmission_type"; "altitude"; "ground_speed"; "track";
    "vertical_rate"; "squawk" ].

Definition FLOAT_FIELDS : list string := [ "lat"; "lon" ].

Definition BOOL_FIELDS : list string :=
  [ "alert"; "emergency"; "spi"; "is_on_ground" ].

(** [val if val else None] *)
Definition or_none (val : string) : value :=
  if String.eqb val "" then VNone else VStr val.

(** [{key: (val if val else None) for key, val in zip(SBS1_FIELDS, parts)}]:
    a later pair overwrites an earlier one with the same key. *)
Definition make_msg_data (parts : list string) : record :=
  fold_left (fun d kv => <[fst kv := or_none (snd kv)]> d)
            (combine SBS1_FIELDS parts) ∅.

(** The body of the first cast loop: the cast is tried when the field is
    truthy, and ValueError and TypeError are swallowed. *)
Definition cast_int (msg_data : record) (key : string) : outcome record :=
  if truthy (get msg_data key) then
    match py_int (get msg_data key) with
    | Returned z => Returned (<[key := VInt z]> msg_data)
    | Raised ValueError | Raised TypeError => Returned msg_data
    | Raised e => Raised e
    end
  else Returned msg_data.

(** The body of the second cast loop. *)
Definition cast_float (msg_data : record) (key : string) : outcome record :=
  if truthy (get msg_data key) then
    match py_float (get msg_data key) with
    | Returned f => Returned (<[key := VFloat f]> msg_data)
    | Raised ValueError | Raised TypeError => Returned msg_data
    | Raised e => Raised e
    end
  else Returned msg_data.

(** The body of the third loop, [bool(int(msg_data[key]))]: it has no
    [try], so whatever [int] raises leaves the function. *)
Definition cast_bool (msg_data : record) (key : string) : outcome record :=
  if truthy (get msg_data key) then
    z ← py_int (get msg_data key);
    Returned (<[key := VBool (negb (z =? 0))]> msg_data)
  else Returned msg_data.

Definition parse_adsb_message (message_str : string) : outcome (option record) :=
  let parts := Str.split "," (Str.strip message_str) in
  if (length parts =? 22)%nat && String.eqb (hd "" parts) "MSG" then
    let msg_data := make_msg_data parts in
    msg_data ← for_each cast_int INT_FIELDS msg_data;
    msg_data ← for_each cast_float FLOAT_FIELDS msg_data;
    msg_data ← for_each cast_bool BOOL_FIELDS msg_data;
    Returned (Some msg_data)
  else Returned None.

(** ** The aircraft table and the dispatch *)

(** [value is not None and value != ''] *)
Definition present (v : value) : bool :=
  match v with
  | VNone => false
  | VStr s => negb (String.eqb s "")
  | _ => true
  end.

(** The merge loop: [for key, value in parsed_data.items(): ...
    aircraft[key] = value]. *)
Definition merge_fields (aircraft parsed_data : record) : record :=
  map_fold (fun key v acc => if present v then <[key := v]> acc else acc)
           aircraft parsed_data.

(** [format(v, '')], as an f-string field without a format spec renders it. *)
Definition to_text (v : value) : outcome string :=
  match v with
  | VNone => Returned "None"
  | VStr s => Returned s
  | VInt z => match int_to_str z with Some s => Returned s | None => Raised ValueError end
  | VFloat f => Returned (float_repr f)
  | VBool b => Returned (if b then "True" else "False")
  end.

(** [f"{abs(x):.2f}{pos if x >= 0 else neg}"] *)
Definition coordinate (x : value) (pos neg : string) : outcome string :=
  match x with
  | VFloat f =>
      Returned (float_fmt2 (float_abs f) +:+ (if float_ge0 f then pos else neg))
  | VInt z =>
      match float_of_int (Z.abs z) with
      | Some f => Returned (float_fmt2 f +:+ (if 0 <=? z then pos else neg))
      | None => Raised OverflowError
      end
  | VBool b =>
      match float_of_int (Z.b2z b) with
      | Some f => Returned (float_fmt2 f +:+ pos)
      | None => Raised OverflowError
      end
  | VNone | VStr _ => Raised TypeError
  end.

Definition format_meshtastic_message (aircraft_data : record) : outcome string :=
  callsign ← match default (VStr "N/A") (aircraft_data !! "callsign") with
             | VStr s => Returned (Str.strip s)
             | _ => Raised AttributeError
             end;
  let altitude := default (VInt 0) (aircraft_data !! "altitude") in
  let lat := default (VFloat float_zero) (aircraft_data !! "lat") in
  let lon := default (VFloat float_zero) (aircraft_data !! "lon") in
  lat_str ← coordinate lat "N" "S";
  lon_str ← coordinate lon "E" "W";
  altitude_str ← to_text altitude;
  Returned (callsign +:+ " " +:+ altitude_str +:+ "ft " +:+ lat_str +:+ "/" +:+ lon_str).

(** The options [process_adsb_message] reads: whether a Meshtastic
    interface is attached, whether MUDP broadcasting is on, the update
    interval, and the debug flag. The interval is an int, as the option's
    [type=int] and its default 300 give it. *)
Record args_t : Type := {
  meshtastic_interface : bool;
  mudp : bool;
  update_interval : Z;
  debug : bool
}.

(** What reaches a sink; a sink is taken to return. The informational
    [print]s are not recorded. *)
Inductive output : Type :=
  | SendText (msg : string)     (* args.meshtastic_interface.sendText(msg) *)
  | MudpSend (msg : string)     (* send_text_message(msg) *)
  | Simulated (msg : string).   (* print("Output (simulated): ...") *)

(** The two tables. A dispatch time is a clock reading, a float. *)
Record state : Type := {
  aircraft_db : gmap string (gmap string value);
  last_sent_time : gmap string pyfloat
}.

(** The tables after the call, what was sent, and the exception that left
    the call, if any. *)
Record result : Type := {
  st : state;
  out : list output;
  raised : option exn
}.

(** [hex_ident not in last_sent_time or
     (current_time - last_sent_time[hex_ident]) > args.update_interval]:
    a float subtraction, then the comparison of a float with an int. *)
Definition rate_limit_open (last_sent_time : gmap string pyfloat) (hex_ident : string)
    (current_time : pyfloat) (interval : Z) : bool :=
  match last_sent_time !! hex_ident with
  | None => true
  | Some t => float_gt_int (float_sub current_time t) interval
  end.

(** The sinks the three [if]s of the dispatch block reach, in order.
    [send_text_message] tells whether the optional MUDP import succeeded. *)
Definition sinks (send_text_message : bool) (args : args_t) : list (string -> output) :=
  (if meshtastic_interface args then [SendText] else [])
  ++ (if mudp args && send_text_message then [MudpSend] else [])
  ++ (if negb (meshtastic_interface args) && negb (mudp args) then [Simulated] else []).

(** [aircraft.get('lat') and aircraft.get('callsign')] *)
Definition reportable (aircraft : record) : bool :=
  truthy (get aircraft "lat") && truthy (get aircraft "callsign").

(** The debug line that closes the dispatch block evaluates
    [aircraft.get('callsign').strip()]; only the exception it may raise is
    recorded. *)
Definition debug_line (args : args_t) (aircraft : record) : option exn :=
  if debug args then
    match get aircraft "callsign" with
    | VStr _ => None
    | _ => Some AttributeError
    end
  else None.

(** The body of [if aircraft.get('lat') and aircraft.get('callsign'):].
    Every sink formats the aggregated record before it sends, so with no
    sink reached the formatter is not called. [aggregated_data] is the
    dictionary [aircraft] that was just stored. *)
Definition dispatch (send_text_message : bool) (args : args_t) (hex_ident : string)
    (current_time : pyfloat) (s : state) : result :=
  if rate_limit_open (last_sent_time s) hex_ident current_time (update_interval args) then
    let aggregated_data := default ∅ (aircraft_db s !! hex_ident) in
    let s' := {| aircraft_db := aircraft_db s;
                 last_sent_time := <[hex_ident := current_time]> (last_sent_time s) |} in
    let sent msgs :=
      {| st := s'; out := msgs; raised := debug_line args aggregated_data |} in
    match sinks send_text_message args with
    | [] => sent []
    | ks =>
        match format_meshtastic_message aggregated_data with
        | Returned msg => sent (map (fun k => k msg) ks)
        | Raised e => {| st := s; out := []; raised := Some e |}
        end
    end
  else {| st := s; out := []; raised := None |}.

(** [process_adsb_message(message, args, aircraft_db, last_sent_time)],
    with [current_time] the reading [time.time()] gives if it is called. *)
Definition process_adsb_message (send_text_message : bool) (message : string)
    (args : args_t) (current_time : pyfloat) (s : state) : result :=
  match parse_adsb_message message with
  | Raised e => {| st := s; out := []; raised := Some e |}
  | Returned None => {| st := s; out := []; raised := None |}
  | Returned (Some parsed_data) =>
      match get parsed_data "hex_ident" with
      | VStr hex_ident =>
          if bool_decide (parsed_data = ∅) || String.eqb hex_ident "" then
            {| st := s; out := []; raised := None |}
          else
            let aircraft :=
              merge_fields (default ∅ (aircraft_db s !! hex_ident)) parsed_data in
            let s' := {| aircraft_db := <[hex_ident := aircraft]> (aircraft_db s);
                         last_sent_time := last_sent_time s |} in
            if reportable aircraft
            then dispatch send_text_message args hex_ident current_time s'
            else {| st := s'; out := []; raised := None |}
      | _ =>
          (* [hex_ident] is [None]; the parser leaves no other kind there *)
          {| st := s; out := []; raised := None |}
      end
  end.

End Program.

Arguments state pyfloat : clear implicits.
Arguments result pyfloat : clear implicits.

(** ** The stream reader *)

Definition CONNECT_ATTEMPT_DELAY : Z := 5.
Definition CONNECT_ATTEMPT_LIMIT : Z := 10.

(** How a connected phase ends once its data is read: a zero-length read,
    or [socket.error] out of [recv]. *)
Inductive recv_end : Type :=
  | PeerClosed
  | RecvError.

(** What the network does in one pass of the [while] loop: creating the
    socket raises, [connect] raises, or the connection is made and
    [recv] returns chunks and then ends. A chunk is the text that
    [s.recv(1024).decode('utf-8', errors='ignore')] gives for one read:
    each read is decoded on its own, and the bytes of a character that
    [recv] cuts in two are dropped by the decoding, before the text
    reaches the buffer. *)
Inductive session : Type :=
  | SocketFails
  | ConnectFails
  | Connected (chunks : list string) (last : recv_end).

Inductive event : Type :=
  | Connect                  (* s.connect((host, port)) is called *)
  | Yield (line : string)
  | Sleep (seconds : Z)
  | Close.                   (* s.close() *)

(** The inner [while '\n' in buffer] loop: the complete lines, in order,
    and what is left in the buffer. *)
Fixpoint take_lines (buffer : string) : list string * string :=
  match buffer with
  | EmptyString => ([], EmptyString)
  | String c rest =>
      let '(lines, tail) := take_lines rest in
      if Ascii.eqb c "010" then (EmptyString :: lines, tail)
      else match lines with
           | [] => ([], String c tail)
           | l :: ls => (String c l :: ls, tail)
           end
  end.

(** The [while True] loop of a connected phase; the flag tells whether it
    was left by [socket.error]. A chunk that decodes to the empty string
    ends it like a zero-length read. *)
Fixpoint recv_loop (buffer : string) (chunks : list string) (last : recv_end)
  : list event * bool :=
  match chunks with
  | [] => ([], match last with PeerClosed => false | RecvError => true end)
  | data :: chunks' =>
      if String.eqb data "" then ([], false)
      else
        let '(lines, buffer') := take_lines (buffer +:+ data) in
        let '(evs, failed) := recv_loop buffer' chunks' last in
        (map Yield lines ++ evs, failed)
  end.

(** The [try] block of one pass: its events, whether [socket.error] was
    raised, and whether [s] is bound afterwards. *)
Definition attempt (x : session) (s_bound : bool) : list event * bool * bool :=
  match x with
  | SocketFails => ([], true, s_bound)
  | ConnectFails => ([Connect], true, true)
  | Connected chunks last =>
      let '(evs, failed) := recv_loop "" chunks last in
      (Connect :: evs, failed, true)
  end.

(** How the generator stands when the script of sessions is used up or
    the loop is left. *)
Inductive reader_status : Type :=
  | Exhausted (unused : list session)              (* returned; the rest of the script is never looked at *)
  | Waiting (conn_attempts : Z) (s_bound : bool).  (* about to start another pass *)

Fixpoint connect_loop (script : list session) (conn_attempts : Z) (s_bound : bool)
  : list event * reader_status :=
  if conn_attempts <? CONNECT_ATTEMPT_LIMIT then
    match script with
    | [] => ([], Waiting conn_attempts s_bound)
    | x :: script' =>
        let '(evs, failed, s_bound') := attempt x s_bound in
        let conn_attempts' := if failed then conn_attempts + 1 else conn_attempts in
        let pause :=
          if failed && (conn_attempts' <? CONNECT_ATTEMPT_LIMIT)
          then [Sleep CONNECT_ATTEMPT_DELAY] else [] in
        let closing := if s_bound' then [Close] else [] in
        let '(later, status) := connect_loop script' conn_attempts' s_bound' in
        (evs ++ pause ++ closing ++ later, status)
    end
  else ([], Exhausted script).

(** [connect_to_dump1090(host, port)] against a script of sessions. *)
Definition connect_to_dump1090 (script : list session) : list event * reader_status :=
  connect_loop script 0 false.

(** ** Vocabulary of the statements *)

Section Vocabulary.

Context {pyfloat : Type} {B : PyBuiltins pyfloat}.

Local Abbreviation value := (value pyfloat).

(** A value as the dictionary comprehension leaves it: [None] or text. *)
Definition is_text (v : value) : bool :=
  match v with
  | VNone | VStr _ => true
  | _ => false
  end.

(** A flag field [bool(int(...))] accepts: empty, or a numeral of [int]. *)
Definition castable_flag (field : string) : bool :=
  String.eqb field "" || bool_decide (is_Some (int_of_str field)).

(** The fields of a line, as the parser takes them. *)
Definition fields (line : string) : list string := Str.split "," (Str.strip line).

(** A well-formed transmission line: 22 fields, the first of them [MSG],
    an aircraft identifier in the fifth, and the four flags (fields 19 to
    22) empty or numerals. *)
Definition well_formed (line : string) : Prop :=
  length (fields line) = 22%nat
  /\ hd "" (fields line) = "MSG"
  /\ nth 4 (fields line) "" <> ""
  /\ forallb castable_flag (skipn 18 (fields line)) = true.

(** The field [key] of the record a call of the parser returned, if it
    returned one. *)
Definition field_of (r : outcome (option (gmap string value))) (key : string)
  : option value :=
  match r with
  | Returned (Some d) => d !! key
  | _ => None
  end.

(** Whether a call of the parser returned a record, and that record. *)
Definition is_record (r : outcome (option (gmap string value))) : bool :=
  match r with
  | Returned (Some _) => true
  | _ => false
  end.

Definition the_record (r : outcome (option (gmap string value)))
  : gmap string value :=
  match r with
  | Returned (Some d) => d
  | _ => ∅
  end.

(** The record stored for [hex] once [parsed] is merged into table [s]. *)
Definition merged (s : state pyfloat) (hex : string) (parsed : gmap string value)
  : gmap string value :=
  merge_fields (default ∅ (aircraft_db s !! hex)) parsed.

(** A loop body that touches the key it is given and no other. *)
Definition frames (body : gmap string value -> string -> outcome (gmap string value)) : Prop :=
  forall m key m', body m key = Returned m' ->
  forall k, k <> key -> m' !! k = m !! k.

End Vocabulary.

(** Whether a session ends in [socket.error], and how many sessions of a
    script do. *)
Definition fails (x : session) : bool :=
  match x with
  | SocketFails | ConnectFails => true
  | Connected chunks last => snd (recv_loop "" chunks last)
  end.

Fixpoint errors (script : list session) : Z :=
  match script with
  | [] => 0
  | x :: script' => (if fails x then 1 else 0) + errors script'
  end.

(** ** Sample inputs *)

Module Sample.

(** A position report of aircraft ABC123 with call sign, altitude,
    latitude and longitude. *)
Definition report : string :=
  "MSG,3,1,1,ABC123,1,2024/01/01,00:00:00.000,2024/01/01,00:00:00.000,BAW123 ,38000,,,51.5,-0.1,,,0,0,0,0".

(** The same aircraft on the equator. *)
Definition equator : string := "MSG,3,1,1,ABC123,1,,,,,BAW123 ,38000,,,0.0,-0.1,,,,,,".

(** No sink configured: the console fallback, every 300 seconds. *)
Definition console : args_t :=
  {| meshtastic_interface := false; mudp := false; update_interval := 300;
     debug := true |}.

Definition fresh : state Float64.t :=
  {| aircraft_db := ∅; last_sent_time := ∅ |}.


(** A server that accepts and closes at once. *)
Definition accept_and_close : session := Connected [] PeerClosed.

(** A connection that delivers one line and then breaks. *)
Definition line_then_reset : session := Connected ["MSG,8" +:+ String "010" ""] RecvError.

End Sample.

(** ** The main loop *)

Section MainLoop.

Context {pyfloat : Type} {B : PyBuiltins pyfloat}.

(** The options as [main] leaves them before the loop. The interface is
    attached when [--no-meshtastic] is off and the device constructor
    returns; [args.mudp] is switched off when the optional import of the
    MUDP library failed ([mudp_lib] tells whether [conn], [node] and
    [send_text_message] are bound). *)
Definition main_args (no_meshtastic device_connects mudp_flag mudp_lib : bool)
    (interval : Z) (debug_flag : bool) : args_t :=
  {| meshtastic_interface := negb no_meshtastic && device_connects;
     mudp := mudp_flag && mudp_lib;
     update_interval := interval;
     debug := debug_flag |}.

(** [for message in dump1090_stream: process_adsb_message(...)]: each line
    comes with the clock reading of its call; an exception that leaves a
    call leaves the loop. *)
Fixpoint main_loop (send_text_message : bool) (args : args_t)
    (feed : list (string * pyfloat)) (s : state pyfloat) : result pyfloat :=
  match feed with
  | [] => {| st := s; out := []; raised := None |}
  | (message, current_time) :: feed' =>
      let r := process_adsb_message send_text_message message args current_time s in
      match raised r with
      | Some _ => r
      | None =>
          let r' := main_loop send_text_message args feed' (st r) in
          {| st := st r'; out := out r ++ out r'; raised := raised r' |}
      end
  end.

End MainLoop.

(** The lines a run of the reader yields, in order. *)
Fixpoint yielded (evs : list event) : list string :=
  match evs with
  | [] => []
  | Yield line :: evs' => line :: yielded evs'
  | _ :: evs' => yielded evs'
  end.

(** ** Vocabulary of the further statements *)

Module Str2.

(** Every character is white space. *)
Fixpoint all_space (s : string) : bool :=
  match s with
  | EmptyString => true
  | String c s' => Str.is_space c && all_space s'
  end.

(** No character is a line feed. *)
Fixpoint no_newline (s : string) : bool :=
  match s with
  | EmptyString => true
  | String c s' => negb (Ascii.eqb c "010") && no_newline s'
  end.

(** The lines, each closed by a line feed, one after the other. *)
Fixpoint join_lines (lines : list string) : string :=
  match lines with
  | [] => EmptyString
  | l :: ls => l +:+ String "010" (join_lines ls)
  end.

End Str2.

Section Vocabulary2.

Context {pyfloat : Type} {B : PyBuiltins pyfloat}.

Local Abbreviation value := (value pyfloat).

(** What the first cast loop makes of a value: the integer when [int]
    returns one, the value itself otherwise. *)
Definition int_cast_value (v : value) : value :=
  if truthy v then match py_int v with Returned z => VInt z | Raised _ => v end
  else v.

Definition float_cast_value (v : value) : value :=
  if truthy v then match py_float v with Returned f => VFloat f | Raised _ => v end
  else v.

Definition bool_cast_value (v : value) : value :=
  if truthy v
  then match py_int v with Returned z => VBool (negb (z =? 0)) | Raised _ => v end
  else v.

(** What the loops together make of the value under [key]. *)
Definition cast_value (key : string) (v : value) : value :=
  if bool_decide (key ∈ INT_FIELDS) then int_cast_value v
  else if bool_decide (key ∈ FLOAT_FIELDS) then float_cast_value v
  else if bool_decide (key ∈ BOOL_FIELDS) then bool_cast_value v
  else v.

(** An integer field of the line in the record: absent when empty, the
    number when [int] reads it, the text itself when it does not. *)
Definition int_field (field : string) : value :=
  if String.eqb field "" then VNone
  else match int_of_str field with Some z => VInt z | None => VStr field end.

Definition float_field (field : string) : value :=
  if String.eqb field "" then VNone
  else match float_of_str field with Some x => VFloat x | None => VStr field end.

(** No field of the record is [None] or the empty string. *)
Definition clean (rec : gmap string value) : Prop :=
  forall k v, rec !! k = Some v -> present v = true.

(** Every record of the table is clean, is stored under a key that is not
    empty, and holds that key as its [hex_ident]. *)
Definition db_ok (s : state pyfloat) : Prop :=
  forall hex rec, aircraft_db s !! hex = Some rec ->
  clean rec /\ hex <> "" /\ rec !! "hex_ident" = Some (VStr hex).

(** Every aircraft that has a dispatch time has a record. *)
Definition timers_ok (s : state pyfloat) : Prop :=
  forall hex, is_Some (last_sent_time s !! hex) -> is_Some (aircraft_db s !! hex).

(** The aircraft a line is about: the [hex_ident] of its record, when the
    parser returns one with an identifier. *)
Definition hex_of (message : string) : option string :=
  match field_of (parse_adsb_message message) "hex_ident" with
  | Some (VStr hex) => Some hex
  | _ => None
  end.

(** A line the loop passes over without touching the tables: the parser
    returns no record for it, or one without an aircraft identifier. *)
Definition ignored (message : string) : bool :=
  match parse_adsb_message message with
  | Returned None => true
  | Returned (Some d) => negb (truthy (get d "hex_ident"))
  | Raised _ => false
  end.

End Vocabulary2.

(** The decoded text of one session: the decoded chunks up to the first
    that is the empty string, taken as one string. *)
Fixpoint received (chunks : list string) : string :=
  match chunks with
  | [] => EmptyString
  | data :: chunks' => if String.eqb data "" then EmptyString else data +:+ received chunks'
  end.

Definition session_lines (x : session) : list string :=
  match x with
  | Connected chunks _ => fst (take_lines (received chunks))
  | _ => []
  end.

(** The seconds slept in a run. *)
Fixpoint slept (evs : list event) : Z :=
  match evs with
  | [] => 0
  | Sleep n :: evs' => n + slept evs'
  | _ :: evs' => slept evs'
  end.

(** Whether a run handles its sockets in order: it never connects while
    a connection is open, and it ends with none open. [opened] tells
    whether one is open at the start. *)
Fixpoint sockets_ok (opened : bool) (evs : list event) : bool :=
  match evs with
  | [] => negb opened
  | Connect :: evs' => negb opened && sockets_ok true evs'
  | Close :: evs' => sockets_ok false evs'
  | _ :: evs' => sockets_ok opened evs'
  end.

(** ** Further sample inputs *)

Module Cases.

(** A latitude that is not a number. *)
Definition bad_lat : string := "MSG,3,1,1,ABC123,1,,,,,BAW123 ,38000,,,north,-0.1,,,,,,".

(** A flag that is not a number. *)
Definition bad_flag : string := "MSG,3,1,1,ABC123,1,,,,,,,,,,,,,x,,,".

(** A position without a call sign, and a call sign without a position. *)
Definition position_only : string := "MSG,3,1,1,ABC123,1,,,,,,38000,,,51.5,-0.1,,,,,,".
Definition callsign_only : string := "MSG,1,1,1,ABC123,1,,,,,BAW123 ,,,,,,,,,,,".

(** A line of another aircraft. *)
Definition other : string := "MSG,3,1,1,4CA2D6,1,,,,,RYR77,,,,53.3,-6.2,,,,,,".

(** Tables in which only the call sign of ABC123 is known. *)
Definition known : state Float64.t :=
  {| aircraft_db := {[ "ABC123" := {[ "callsign" := VStr "BAW123 " ]} ]};
     last_sent_time := ∅ |}.

(** A line that [recv] delivers in two pieces, followed by the start of a
    second line that is never finished. *)
Definition split_line : session :=
  Connected ["MSG,8,1"; ",1,ABC123" +:+ String "010" "MSG,3"] PeerClosed.

End Cases.

(** * Properties *)

(** ** Text *)

Lemma split_length (sep : ascii) (s : string) :
  length (Str.split sep s) = S (Str.count sep s).
Proof.
  induction s as [|c s IH]; simpl; [reflexivity|].
  destruct (Ascii.eqb c sep); simpl; [now rewrite IH|].
  destruct (Str.split sep s) as [|f fs]; simpl in *; congruence.
Qed.

Lemma split_not_nil (sep : ascii) (s : string) : Str.split sep s <> [].
Proof.
  intros H. pose proof (split_length sep s) as L. rewrite H in L. discriminate.
Qed.

Lemma space_not_comma (c : ascii) : Str.is_space c = true -> Ascii.eqb c "," = false.
Proof.
  destruct (Ascii.eqb_spec c ","%char) as [->|]; [discriminate|reflexivity].
Qed.

Lemma rstrip_empty_count (c : ascii) (s : string) :
  Str.is_space c = false -> Str.rstrip s = EmptyString -> Str.count c s = 0%nat.
Proof.
  intros Hc. induction s as [|d s IH]; simpl; [reflexivity|].
  destruct (Str.rstrip s) eqn:E; [|discriminate].
  destruct (Str.is_space d) eqn:Hd; [|discriminate].
  intros _. rewrite IH by reflexivity.
  destruct (Ascii.eqb_spec d c) as [->|]; [congruence|reflexivity].
Qed.

Lemma count_rstrip (c : ascii) (s : string) :
  Str.is_space c = false -> Str.count c (Str.rstrip s) = Str.count c s.
Proof.
  intros Hc. induction s as [|d s IH]; simpl; [reflexivity|].
  destruct (Str.rstrip s) as [|r0 r] eqn:E.
  - rewrite (rstrip_empty_count c s Hc E).
    destruct (Str.is_space d) eqn:Hd; simpl.
    + destruct (Ascii.eqb_spec d c) as [->|]; [congruence|reflexivity].
    + reflexivity.
  - simpl in *. now rewrite IH.
Qed.

Lemma count_lstrip (c : ascii) (s : string) :
  Str.is_space c = false -> Str.count c (Str.lstrip s) = Str.count c s.
Proof.
  intros Hc. induction s as [|d s IH]; simpl; [reflexivity|].
  destruct (Str.is_space d) eqn:Hd; [|reflexivity].
  rewrite IH. destruct (Ascii.eqb_spec d c) as [->|]; [congruence|reflexivity].
Qed.

(** Stripping a line does not change how many fields it has. *)
Lemma split_strip_length (s : string) :
  length (Str.split "," (Str.strip s)) = length (Str.split "," s).
Proof.
  rewrite !split_length. unfold Str.strip.
  rewrite count_lstrip, count_rstrip; reflexivity.
Qed.

(** [s.lstrip()] only touches the first field. *)
Lemma split_lstrip (s : string) :
  Str.split "," (Str.lstrip s) =
  match Str.split "," s with
  | f :: fs => Str.lstrip f :: fs
  | [] => []
  end.
Proof.
  induction s as [|c s IH]; simpl; [reflexivity|].
  destruct (Str.is_space c) eqn:Hc.
  - rewrite (space_not_comma c Hc), IH.
    destruct (Str.split "," s) as [|f fs] eqn:E; [now destruct (split_not_nil _ _ E)|].
    simpl. now rewrite Hc.
  - simpl. destruct (Ascii.eqb c ","); [reflexivity|].
    destruct (Str.split "," s) as [|f fs] eqn:E; simpl; now rewrite Hc.
Qed.

Lemma split_cons (sep c : ascii) (s : string) :
  Str.split sep (String c s) =
  if Ascii.eqb c sep then EmptyString :: Str.split sep s
  else match Str.split sep s with
       | f :: fs => String c f :: fs
       | [] => [String c EmptyString]
       end.
Proof. reflexivity. Qed.

Lemma rstrip_cons (c : ascii) (s : string) :
  Str.rstrip (String c s) =
  match Str.rstrip s with
  | EmptyString => if Str.is_space c then EmptyString else String c EmptyString
  | r => String c r
  end.
Proof. reflexivity. Qed.

Lemma split_single_empty (sep : ascii) (s : string) :
  Str.split sep s = [EmptyString] -> s = EmptyString.
Proof.
  destruct s as [|c s]; [reflexivity|]. rewrite split_cons.
  destruct (Ascii.eqb c sep).
  - intros H. injection H as H. now destruct (split_not_nil _ _ H).
  - destruct (Str.split sep s); discriminate.
Qed.

(** [s.rstrip()] only touches the last field. *)
Lemma split_rstrip (s : string) :
  Str.split "," (Str.rstrip s) = Str.map_last Str.rstrip (Str.split "," s).
Proof.
  induction s as [|c s IH]; [reflexivity|].
  rewrite rstrip_cons, (split_cons _ c s).
  destruct (Str.split "," s) as [|f fs] eqn:E; [now destruct (split_not_nil _ _ E)|].
  destruct (Str.rstrip s) as [|r0 r] eqn:R.
  - destruct fs as [|g gs]; [|simpl in IH; destruct gs; discriminate].
    simpl in IH. injection IH as IH.
    destruct (Str.is_space c) eqn:Hsp.
    + rewrite (space_not_comma c Hsp). simpl. now rewrite <- IH, Hsp.
    + rewrite split_cons. destruct (Ascii.eqb c ","); simpl.
      * now rewrite <- IH.
      * now rewrite <- IH, Hsp.
  - rewrite split_cons, IH. destruct (Ascii.eqb c ","); [now destruct fs|].
    destruct fs as [|g gs]; [|reflexivity].
    cbn [Str.map_last] in *. rewrite rstrip_cons. destruct (Str.rstrip f) eqn:F; [|reflexivity].
    apply split_single_empty in IH. discriminate.
Qed.

(** On a line of at least three fields, stripping leaves every field but
    the first and the last as it is. *)
Lemma split_strip_inner (s : string) (i : nat) :
  (0 < i)%nat -> (S i < length (Str.split "," s))%nat ->
  nth i (Str.split "," (Str.strip s)) EmptyString = nth i (Str.split "," s) EmptyString.
Proof.
  intros Hi Hlen. unfold Str.strip. rewrite split_lstrip, split_rstrip.
  remember (Str.split "," s) as l eqn:E. clear E s.
  assert (Hl : forall (l : list string) i, (S i < length l)%nat ->
            nth i (Str.map_last Str.rstrip l) EmptyString = nth i l EmptyString).
  { clear. induction l as [|x l IH]; intros i H; [reflexivity|].
    destruct l as [|y l]; [simpl in H; lia|].
    change (Str.map_last Str.rstrip (x :: y :: l)) with (x :: Str.map_last Str.rstrip (y :: l)).
    destruct i as [|i]; [reflexivity|]. simpl nth. apply IH. simpl in *. lia. }
  specialize (Hl l i Hlen).
  destruct (Str.map_last Str.rstrip l) as [|f fs] eqn:M.
  - destruct l as [|x [|y l]]; simpl in M; discriminate || (simpl in Hlen; lia).
  - destruct i as [|i]; [lia|]. simpl. simpl in Hl. exact Hl.
Qed.

(** On a line of at least two fields, stripping removes the white space
    before the first field and nothing else of it. *)
Lemma split_strip_first (s : string) :
  (2 <= length (Str.split "," s))%nat ->
  hd EmptyString (Str.split "," (Str.strip s))
  = Str.lstrip (hd EmptyString (Str.split "," s)).
Proof.
  intros Hlen. unfold Str.strip. rewrite split_lstrip, split_rstrip.
  destruct (Str.split "," s) as [|x [|y l]]; simpl in Hlen; try lia.
  reflexivity.
Qed.

(** ** The parser *)

Section ParserProps.

Context {pyfloat : Type} {B : PyBuiltins pyfloat}.

Local Abbreviation value := (value pyfloat).

Implicit Types (m d : gmap string value) (key k : string).

Lemma get_lookup m k v : m !! k = Some v -> get m k = v.
Proof. unfold get. now intros ->. Qed.

Lemma get_eq m m' k : m' !! k = m !! k -> get m' k = get m k.
Proof. unfold get. now intros ->. Qed.

Lemma cast_int_frames : frames cast_int.
Proof.
  intros m key m' H k Hk. unfold cast_int in H.
  destruct (truthy (get m key)); [|now inversion H].
  destruct (py_int (get m key)) as [z|[]]; inversion H; subst;
    [now rewrite lookup_insert_ne|reflexivity|reflexivity].
Qed.

Lemma cast_float_frames : frames cast_float.
Proof.
  intros m key m' H k Hk. unfold cast_float in H.
  destruct (truthy (get m key)); [|now inversion H].
  destruct (py_float (get m key)) as [z|[]]; inversion H; subst;
    [now rewrite lookup_insert_ne|reflexivity|reflexivity].
Qed.

Lemma cast_bool_frames : frames cast_bool.
Proof.
  intros m key m' H k Hk. unfold cast_bool in H.
  destruct (truthy (get m key)); [|now inversion H].
  destruct (py_int (get m key)) as [z|e]; inversion H; subst.
  now rewrite lookup_insert_ne.
Qed.

Lemma for_each_frames body keys :
  frames body ->
  forall m m', for_each body keys m = Returned m' ->
  forall k, k ∉ keys -> m' !! k = m !! k.
Proof.
  intros Hb. induction keys as [|key keys IH]; intros m m' H k Hk; simpl in H.
  - now inversion H.
  - apply not_elem_of_cons in Hk as [Hne Hk].
    destruct (body m key) as [m1|e] eqn:E; [|discriminate].
    change (for_each body keys m1 = Returned m') in H.
    rewrite (IH _ _ H k Hk). now apply (Hb _ _ _ E).
Qed.

(** A loop returns when its body returns on every field it visits. *)
Lemma for_each_returns body (P : string -> value -> Prop) keys :
  frames body ->
  (forall m key, P key (get m key) -> exists m', body m key = Returned m') ->
  NoDup keys ->
  forall m, (forall k, k ∈ keys -> P k (get m k)) ->
  exists m', for_each body keys m = Returned m'.
Proof.
  intros Hf Hb. induction keys as [|key keys IH]; intros Hnd m HP; simpl.
  - now exists m.
  - apply NoDup_cons in Hnd as [Hnotin Hnd].
    destruct (Hb m key (HP key (list_elem_of_here _ _))) as [m1 E]. rewrite E.
    change (exists m', for_each body keys m1 = Returned m').
    apply (IH Hnd). intros k Hk.
    rewrite (get_eq m m1 k); [apply HP; now apply list_elem_of_further|].
    apply (Hf _ _ _ E). intros ->. contradiction.
Qed.

Lemma cast_int_returns m key :
  is_text (get m key) = true -> exists m', cast_int m key = Returned m'.
Proof.
  unfold cast_int. destruct (get m key) as [|s| | |]; try discriminate; intros _; simpl.
  - eauto.
  - destruct (negb _); [|eauto]. destruct (int_of_str s); eauto.
Qed.

Lemma cast_float_returns m key :
  is_text (get m key) = true -> exists m', cast_float m key = Returned m'.
Proof.
  unfold cast_float. destruct (get m key) as [|s| | |]; try discriminate; intros _; simpl.
  - eauto.
  - destruct (negb _); [|eauto]. destruct (float_of_str s); eauto.
Qed.

Lemma cast_bool_returns m key field :
  get m key = or_none field -> castable_flag field = true ->
  exists m', cast_bool m key = Returned m'.
Proof.
  unfold cast_bool, or_none, castable_flag. intros -> H.
  destruct (String.eqb field "") eqn:E; simpl; [eauto|].
  rewrite E. simpl in *. apply bool_decide_eq_true in H as [z Hz].
  rewrite Hz. simpl. eauto.
Qed.

(** The comprehension stores [or_none] of the field at each name. *)
Lemma make_msg_data_text parts k :
  is_text (get (make_msg_data (pyfloat := pyfloat) parts) k) = true.
Proof.
  unfold make_msg_data.
  assert (H : forall (l : list (string * string)) (acc : gmap string value),
             (forall k, is_text (get acc k) = true) ->
             forall k, is_text (get (fold_left
               (fun d kv => <[fst kv := or_none (snd kv)]> d) l acc) k) = true).
  { induction l as [|[a b] l IH]; intros acc Hacc; simpl; [exact Hacc|].
    apply IH. intros k'. unfold get. simpl.
    destruct (decide (a = k')) as [->|Hne].
    - rewrite lookup_insert_eq. simpl. unfold or_none. now destruct (String.eqb b "").
    - rewrite lookup_insert_ne by exact Hne. apply Hacc. }
  apply H. intros k'. unfold get. now rewrite lookup_empty.
Qed.

Lemma bind_returned {A C : Type} (a : A) (k : A -> outcome C) :
  (Returned a ≫= k) = k a.
Proof. reflexivity. Qed.

Lemma parse_unfold line :
  parse_adsb_message line =
  if (length (fields line) =? 22)%nat && String.eqb (hd "" (fields line)) "MSG" then
    msg_data ← for_each cast_int INT_FIELDS (make_msg_data (fields line));
    msg_data ← for_each cast_float FLOAT_FIELDS msg_data;
    msg_data ← for_each cast_bool BOOL_FIELDS msg_data;
    Returned (Some msg_data)
  else Returned None.
Proof. reflexivity. Qed.

Ltac list_of_22 parts H :=
  do 22 (destruct parts as [|? parts]; [discriminate H|]);
  destruct parts; [clear H|discriminate H].

Ltac not_among :=
  let H := fresh in
  intros H; repeat (apply elem_of_cons in H as [H|H]; [discriminate H|]);
  now apply elem_of_nil in H.

Lemma nodup_int_fields : NoDup INT_FIELDS.
Proof. unfold INT_FIELDS. repeat (apply NoDup_cons; split; [not_among|]). apply NoDup_nil_2. Qed.

Lemma nodup_float_fields : NoDup FLOAT_FIELDS.
Proof. unfold FLOAT_FIELDS. repeat (apply NoDup_cons; split; [not_among|]). apply NoDup_nil_2. Qed.

Lemma nodup_bool_fields : NoDup BOOL_FIELDS.
Proof. unfold BOOL_FIELDS. repeat (apply NoDup_cons; split; [not_among|]). apply NoDup_nil_2. Qed.

(** What the parser returns agrees with the comprehension on every field
    that is not cast. *)
Lemma parse_inv line d :
  parse_adsb_message line = Returned (Some d) ->
  length (fields line) = 22%nat /\ hd "" (fields line) = "MSG"
  /\ forall k, k ∉ INT_FIELDS -> k ∉ FLOAT_FIELDS -> k ∉ BOOL_FIELDS ->
     d !! k = make_msg_data (fields line) !! k.
Proof.
  rewrite parse_unfold.
  destruct (length (fields line) =? 22)%nat eqn:Hlen; [|discriminate].
  destruct (String.eqb (hd "" (fields line)) "MSG") eqn:Hmsg; [|discriminate].
  cbn [andb]. intros H.
  destruct (for_each cast_int INT_FIELDS _) as [m1|] eqn:E1; [|discriminate].
  rewrite bind_returned in H.
  destruct (for_each cast_float FLOAT_FIELDS m1) as [m2|] eqn:E2; [|discriminate].
  rewrite bind_returned in H.
  destruct (for_each cast_bool BOOL_FIELDS m2) as [m3|] eqn:E3; [|discriminate].
  rewrite bind_returned in H. injection H as <-.
  split; [now apply Nat.eqb_eq|]. split; [now apply String.eqb_eq|].
  intros k Hi Hf Hb.
  rewrite (for_each_frames _ _ cast_bool_frames _ _ E3 k Hb).
  rewrite (for_each_frames _ _ cast_float_frames _ _ E2 k Hf).
  exact (for_each_frames _ _ cast_int_frames _ _ E1 k Hi).
Qed.

Lemma msg_data_hex_ident parts :
  length parts = 22%nat ->
  make_msg_data (pyfloat := pyfloat) parts !! "hex_ident"
  = Some (or_none (nth 4 parts "")).
Proof. intros H. list_of_22 parts H. reflexivity. Qed.

Lemma msg_data_alert parts :
  length parts = 22%nat ->
  make_msg_data (pyfloat := pyfloat) parts !! "alert"
  = Some (or_none (nth 18 parts "")).
Proof. intros H. list_of_22 parts H. reflexivity. Qed.

(** The lenient casts: an integer or float field whose text is not a
    numeral is left as it is, and the loop goes on. *)
Lemma cast_int_keeps_text (m : gmap string value) (key s : string) :
  get m key = VStr s -> int_of_str s = None -> cast_int m key = Returned m.
Proof.
  intros Hg Hs. unfold cast_int. rewrite Hg. simpl. rewrite Hs.
  now destruct (negb _).
Qed.

Lemma cast_float_keeps_text (m : gmap string value) (key s : string) :
  get m key = VStr s -> float_of_str s = None -> cast_float m key = Returned m.
Proof.
  intros Hg Hs. unfold cast_float. rewrite Hg. simpl. rewrite Hs.
  now destruct (negb _).
Qed.

(** The flag cast is not lenient: text that is not a numeral raises. *)
Lemma cast_bool_raises (m : gmap string value) (key s : string) :
  get m key = VStr s -> s <> "" -> int_of_str s = None ->
  cast_bool m key = Raised ValueError.
Proof.
  intros Hg Hne Hs. unfold cast_bool. rewrite Hg. simpl. rewrite Hs.
  destruct (String.eqb_spec s ""); [contradiction|reflexivity].
Qed.

(** The two lenient loops return on whatever text the fields hold, and
    leave the fields they do not cast as the comprehension made them. *)
Lemma lenient_loops_return parts :
  exists m1 m2,
    for_each cast_int INT_FIELDS (make_msg_data parts) = Returned m1
    /\ for_each cast_float FLOAT_FIELDS m1 = Returned m2
    /\ forall k, k ∉ INT_FIELDS -> k ∉ FLOAT_FIELDS ->
       m2 !! k = make_msg_data parts !! k.
Proof.
  destruct (for_each_returns cast_int (fun _ v => is_text v = true) INT_FIELDS
              cast_int_frames cast_int_returns nodup_int_fields
              (make_msg_data parts)) as [m1 E1].
  { intros k _. apply make_msg_data_text. }
  destruct (for_each_returns cast_float (fun _ v => is_text v = true) FLOAT_FIELDS
              cast_float_frames cast_float_returns nodup_float_fields m1) as [m2 E2].
  { intros k Hk. rewrite (get_eq (make_msg_data parts) m1 k).
    - apply make_msg_data_text.
    - apply (for_each_frames _ _ cast_int_frames _ _ E1).
      unfold FLOAT_FIELDS in Hk.
      repeat (apply elem_of_cons in Hk as [->|Hk]; [not_among|]).
      now apply elem_of_nil in Hk. }
  exists m1, m2. split; [exact E1|]. split; [exact E2|].
  intros k Hi Hf.
  rewrite (for_each_frames _ _ cast_float_frames _ _ E2 k Hf).
  exact (for_each_frames _ _ cast_int_frames _ _ E1 k Hi).
Qed.

(** The parser returns a record on every 22-field [MSG] line whose flags
    are empty or numerals. *)
Lemma parse_returns line :
  length (fields line) = 22%nat -> hd "" (fields line) = "MSG" ->
  forallb castable_flag (skipn 18 (fields line)) = true ->
  exists d, parse_adsb_message line = Returned (Some d).
Proof.
  intros Hlen Hmsg Hflags. rewrite parse_unfold.
  rewrite Hlen, Hmsg. cbn [Nat.eqb String.eqb Ascii.eqb Bool.eqb andb].
  destruct (lenient_loops_return (fields line)) as (m1 & m2 & E1 & E2 & Hm2).
  rewrite E1, bind_returned, E2, bind_returned.
  destruct (for_each_returns cast_bool
              (fun _ v => exists field, v = or_none field /\ castable_flag field = true)
              BOOL_FIELDS cast_bool_frames) with (m := m2) as [m3 E3].
  { intros m key (field & Hv & Hc). now apply (cast_bool_returns m key field). }
  { exact nodup_bool_fields. }
  { intros k Hk.
    assert (Hk0 : get m2 k = get (make_msg_data (fields line)) k).
    { apply get_eq. apply Hm2; unfold BOOL_FIELDS in Hk;
        repeat (apply elem_of_cons in Hk as [->|Hk]; [not_among|]);
        now apply elem_of_nil in Hk. }
    rewrite Hk0. clear Hk0 E1 E2 Hm2 m1 m2 Hmsg.
    remember (fields line) as parts eqn:Ep. clear Ep.
    list_of_22 parts Hlen. simpl in Hflags.
    repeat (apply andb_prop in Hflags as [? Hflags]).
    unfold BOOL_FIELDS in Hk.
    repeat (apply elem_of_cons in Hk as [->|Hk]; [eexists; split; [reflexivity|assumption]|]).
    now apply elem_of_nil in Hk. }
  rewrite E3, bind_returned. eauto.
Qed.

(** The parser raises on every 22-field [MSG] line whose [alert] flag is
    text that [int] does not read, whatever the other fields hold. *)
Lemma parse_raises_on_alert line :
  length (fields line) = 22%nat -> hd "" (fields line) = "MSG" ->
  nth 18 (fields line) "" <> "" -> int_of_str (nth 18 (fields line) "") = None ->
  parse_adsb_message line = Raised ValueError.
Proof.
  intros Hlen Hmsg Hne Hint. rewrite parse_unfold.
  rewrite Hlen, Hmsg. cbn [Nat.eqb String.eqb Ascii.eqb Bool.eqb andb].
  destruct (lenient_loops_return (fields line)) as (m1 & m2 & E1 & E2 & Hm2).
  rewrite E1, bind_returned, E2, bind_returned.
  assert (Ha : get m2 "alert" = VStr (nth 18 (fields line) "")).
  { rewrite (get_eq (make_msg_data (fields line)) m2 "alert")
      by (apply Hm2; unfold INT_FIELDS, FLOAT_FIELDS; not_among).
    rewrite (get_lookup _ _ _ (msg_data_alert _ Hlen)). unfold or_none.
    now destruct (String.eqb_spec (nth 18 (fields line) "") ""). }
  unfold BOOL_FIELDS. cbn [for_each].
  now rewrite (cast_bool_raises m2 "alert" _ Ha Hne Hint).
Qed.

Lemma parse_hex_ident line d :
  parse_adsb_message line = Returned (Some d) ->
  d !! "hex_ident" = Some (or_none (nth 4 (fields line) "")).
Proof.
  intros H. apply parse_inv in H as (Hlen & _ & Hd).
  rewrite Hd by (unfold INT_FIELDS, FLOAT_FIELDS, BOOL_FIELDS; not_among).
  now apply msg_data_hex_ident.
Qed.

End ParserProps.

(** ** The merge *)

Section MergeProps.

Context {pyfloat : Type} {B : PyBuiltins pyfloat}.

Local Abbreviation value := (value pyfloat).

Implicit Types (aircraft parsed : gmap string value) (key hex : string).

(** Field by field: a present incoming value wins, anything else keeps
    what was stored. *)
Lemma merge_fields_lookup aircraft parsed key :
  merge_fields aircraft parsed !! key =
  match parsed !! key with
  | Some v => if present v then Some v else aircraft !! key
  | None => aircraft !! key
  end.
Proof.
  unfold merge_fields.
  apply (map_fold_weak_ind (fun r (m : gmap string value) =>
    r !! key = match m !! key with
               | Some v => if present v then Some v else aircraft !! key
               | None => aircraft !! key
               end)).
  - now rewrite lookup_empty.
  - intros i x m r Hi IH. destruct (decide (i = key)) as [->|Hne].
    + rewrite lookup_insert_eq. rewrite Hi in IH.
      destruct (present x); [now rewrite lookup_insert_eq|exact IH].
    + rewrite (lookup_insert_ne m) by exact Hne.
      destruct (present x); [now rewrite lookup_insert_ne|exact IH].
Qed.

Lemma merge_fields_idempotent aircraft parsed :
  merge_fields (merge_fields aircraft parsed) parsed = merge_fields aircraft parsed.
Proof.
  apply map_eq. intros key. rewrite !merge_fields_lookup.
  destruct (parsed !! key) as [v|]; [|reflexivity].
  now destruct (present v).
Qed.

Lemma present_false (v : value) :
  present v = false <-> v = VNone \/ v = VStr "".
Proof.
  destruct v as [|s| | |]; simpl; split; intros H;
    try discriminate; try (destruct H; discriminate); auto.
  - right. apply negb_false_iff, String.eqb_eq in H. now subst.
  - destruct H as [H|H]; [discriminate|]. now injection H as ->.
Qed.

(** The aircraft table after a call, whatever else the call does. *)
Lemma process_aircraft_db stm message args now (s : state pyfloat) :
  aircraft_db (st (process_adsb_message stm message args now s)) =
  match parse_adsb_message message with
  | Returned (Some parsed) =>
      match get parsed "hex_ident" with
      | VStr hex =>
          if bool_decide (parsed = ∅) || String.eqb hex "" then aircraft_db s
          else <[hex := merge_fields (default ∅ (aircraft_db s !! hex)) parsed]>
                 (aircraft_db s)
      | _ => aircraft_db s
      end
  | _ => aircraft_db s
  end.
Proof.
  unfold process_adsb_message.
  destruct (parse_adsb_message message) as [[parsed|]|e]; try reflexivity.
  destruct (get parsed "hex_ident") as [|hex| | |]; try reflexivity.
  destruct (bool_decide (parsed = ∅) || String.eqb hex ""); [reflexivity|].
  destruct (reportable _); [|reflexivity].
  unfold dispatch. destruct (rate_limit_open _ _ _ _); [|reflexivity].
  destruct (sinks stm args); [reflexivity|].
  lazymatch goal with |- context [format_meshtastic_message ?a] =>
    destruct (format_meshtastic_message a) end; reflexivity.
Qed.

(** What the parser returns as [hex_ident] is text, and never empty. *)
Lemma parsed_hex_ident message parsed hex :
  parse_adsb_message message = Returned (Some parsed) ->
  get parsed "hex_ident" = VStr hex ->
  bool_decide (parsed = ∅) || String.eqb hex "" = false.
Proof.
  intros Hp Hg. pose proof (parse_hex_ident _ _ Hp) as Hl.
  rewrite (get_lookup _ _ _ Hl) in Hg. unfold or_none in Hg.
  apply orb_false_intro.
  - apply bool_decide_eq_false. intros ->. now rewrite lookup_empty in Hl.
  - destruct (String.eqb (nth 4 (fields message) "") "") eqn:E; [discriminate|].
    injection Hg as <-. exact E.
Qed.

End MergeProps.

Section ParserClaims.

Context {pyfloat : Type} {B : PyBuiltins pyfloat}.

Local Abbreviation value := (value pyfloat).

(** C7. [parse_adsb_message] returns [None] whenever the line does not
    split on commas into exactly 22 fields or its first field is not the
    token [MSG]; only a 22-field line whose first field is [MSG] produces
    a record. The fields are those of the line with the white space
    around it stripped, which has as many fields as the line itself and,
    where there are two fields or more, the same first field but for
    white space before it. *)
Theorem parse_rejects_other_lines (line : string) :
  (length (Str.split "," line) <> 22%nat \/ hd "" (fields line) <> "MSG" ->
   parse_adsb_message line = Returned None)
  /\ (forall d, parse_adsb_message line = Returned (Some d) ->
      length (Str.split "," line) = 22%nat /\ hd "" (fields line) = "MSG")
  /\ ((2 <= length (Str.split "," line))%nat ->
      hd "" (fields line) = Str.lstrip (hd "" (Str.split "," line))).
Proof.
  split; [|split; [|apply split_strip_first]].
  - intros H. rewrite parse_unfold.
    destruct (Nat.eqb_spec (length (fields line)) 22) as [Hlen|]; [|reflexivity].
    destruct (String.eqb_spec (hd "" (fields line)) "MSG") as [Hmsg|]; [|reflexivity].
    unfold fields in Hlen. rewrite split_strip_length in Hlen.
    destruct H as [H|H]; contradiction.
  - intros d H. apply parse_inv in H as (Hlen & Hmsg & _).
    unfold fields in Hlen. rewrite split_strip_length in Hlen. now split.
Qed.

(** C8. On every well-formed 22-field [MSG] line the parser returns a
    record whose [hex_ident] is exactly the fifth comma-separated field
    of the line. *)
Theorem parse_keeps_hex_ident (line : string) :
  well_formed line ->
  exists d, parse_adsb_message line = Returned (Some d)
            /\ d !! "hex_ident" = Some (VStr (nth 4 (Str.split "," line) "")).
Proof.
  intros (Hlen & Hmsg & Hhex & Hflags).
  destruct (parse_returns line Hlen Hmsg Hflags) as [d Hd].
  exists d. split; [exact Hd|].
  rewrite (parse_hex_ident line d Hd).
  assert (Hraw : nth 4 (fields line) "" = nth 4 (Str.split "," line) "").
  { unfold fields in *. apply split_strip_inner; [lia|].
    rewrite <- split_strip_length, Hlen. lia. }
  rewrite <- Hraw. unfold or_none.
  destruct (String.eqb_spec (nth 4 (fields line) "") ""); [contradiction|reflexivity].
Qed.

End ParserClaims.

(** C7 at two lines: a status line of another type, and a line one field
    short. *)
Lemma parse_rejects_other_lines_witness :
  (length (Str.split "," "STA,,5,179,400AE7,10103,,,,,,,,,,,,,,,,") <> 22%nat
   \/ hd "" (fields "STA,,5,179,400AE7,10103,,,,,,,,,,,,,,,,") <> "MSG")
  /\ parse_adsb_message (B := Float64.builtins)
       "STA,,5,179,400AE7,10103,,,,,,,,,,,,,,,," = Returned None.
Proof.
  assert (H : length (Str.split "," "STA,,5,179,400AE7,10103,,,,,,,,,,,,,,,,") <> 22%nat
              \/ hd "" (fields "STA,,5,179,400AE7,10103,,,,,,,,,,,,,,,,") <> "MSG").
  { right. vm_compute. discriminate. }
  split; [exact H|].
  exact (proj1 (parse_rejects_other_lines (B := Float64.builtins) _) H).
Defined.

(** C8 at a position report. *)
Lemma parse_keeps_hex_ident_witness :
  well_formed (B := Float64.builtins)
    "MSG,3,1,1,ABC123,1,2024/01/01,00:00:00.000,2024/01/01,00:00:00.000,,38000,,,51.5,-0.1,,,0,0,0,0"
  /\ exists d,
      parse_adsb_message (B := Float64.builtins)
        "MSG,3,1,1,ABC123,1,2024/01/01,00:00:00.000,2024/01/01,00:00:00.000,,38000,,,51.5,-0.1,,,0,0,0,0"
      = Returned (Some d)
      /\ d !! "hex_ident" = Some (VStr "ABC123").
Proof.
  assert (H : well_formed (B := Float64.builtins)
    "MSG,3,1,1,ABC123,1,2024/01/01,00:00:00.000,2024/01/01,00:00:00.000,,38000,,,51.5,-0.1,,,0,0,0,0").
  { unfold well_formed. split; [vm_compute; reflexivity|].
    split; [vm_compute; reflexivity|]. split; vm_compute; congruence. }
  split; [exact H|].
  exact (parse_keeps_hex_ident (B := Float64.builtins) _ H).
Defined.

(** C1. A 22-field [MSG] line whose [alert] flag is the text [x]: the
    flag cast has no handler, so [ValueError] leaves the parser and no
    record is returned. The same text in the integer field [altitude] is
    kept as text and the record is returned. *)
Theorem flag_cast_failure_leaves_parser :
  length (Str.split "," "MSG,3,1,1,ABC123,1,,,,,,,,,,,,,x,,,") = 22%nat
  /\ hd "" (fields "MSG,3,1,1,ABC123,1,,,,,,,,,,,,,x,,,") = "MSG"
  /\ nth 18 (fields "MSG,3,1,1,ABC123,1,,,,,,,,,,,,,x,,,") "" = "x"
  /\ parse_adsb_message (B := Float64.builtins)
       "MSG,3,1,1,ABC123,1,,,,,,,,,,,,,x,,," = Raised ValueError
  /\ field_of (parse_adsb_message (B := Float64.builtins)
                 "MSG,3,1,1,ABC123,1,,,,,,x,,,,,,,,,,") "altitude"
     = Some (VStr "x").
Proof.
  split; [vm_compute; reflexivity|].
  split; [vm_compute; reflexivity|].
  split; [vm_compute; reflexivity|].
  split; vm_compute; reflexivity.
Qed.

(** ** The aircraft table and the dispatch *)

Section DispatchClaims.

Context {pyfloat : Type} {B : PyBuiltins pyfloat}.

Local Abbreviation value := (value pyfloat).

Implicit Types (parsed aircraft : gmap string value) (s : state pyfloat) (hex : string).

Lemma record_returned (r : outcome (option (gmap string value))) :
  is_record r = true -> r = Returned (Some (the_record r)).
Proof. destruct r as [[d|]|e]; simpl; congruence. Qed.

(** The rate limiter lets a dispatch through exactly when there was none
    before or the float difference of the two readings is greater than
    the interval. *)
Lemma rate_limit_open_iff (last : gmap string pyfloat) hex (now : pyfloat) (interval : Z) :
  rate_limit_open last hex now interval = true <->
  last !! hex = None
  \/ exists t, last !! hex = Some t /\ float_gt_int (float_sub now t) interval = true.
Proof.
  unfold rate_limit_open. destruct (last !! hex) as [t|]; [|tauto]. split.
  - intros H. right. exists t. now split.
  - intros [H|(t' & H & Hgt)]; [discriminate|]. now injection H as <-.
Qed.


(** The debug line raises nothing on a record that is reportable and
    renders: its call sign is text. *)
Lemma debug_line_quiet args aircraft msg :
  reportable aircraft = true ->
  format_meshtastic_message aircraft = Returned msg ->
  debug_line args aircraft = None.
Proof.
  unfold reportable, debug_line, format_meshtastic_message, get.
  intros Hr Hf. apply andb_prop in Hr as [_ Hc].
  destruct (debug args); [|reflexivity].
  destruct (aircraft !! "callsign") as [[|c| | |]|]; simpl in *;
    try reflexivity; discriminate.
Qed.

(** Where the dispatch condition is the presence test: on a record whose
    call sign is text and whose latitude is text or a float that tests
    true (any float but zero). *)
Lemma reportable_when_present aircraft :
  is_text (get aircraft "callsign") = true ->
  is_text (get aircraft "lat") = true
  \/ (exists f, get aircraft "lat" = VFloat f /\ float_truthy f = true) ->
  reportable aircraft
  = present (get aircraft "lat") && present (get aircraft "callsign").
Proof.
  unfold reportable. intros Hc Hl. f_equal.
  - destruct Hl as [Hl|(f & -> & Hf)]; [|exact Hf].
    now destruct (get aircraft "lat").
  - now destruct (get aircraft "callsign").
Qed.


(** C4. When a parsed record is merged under its [hex_ident], every field
    of it that is neither [None] nor the empty string overwrites the
    stored field, and every other field of the stored record is left as
    it was. *)
Theorem merge_keeps_known_fields stm message args now s parsed hex :
  parse_adsb_message message = Returned (Some parsed) ->
  get parsed "hex_ident" = VStr hex ->
  exists stored,
    aircraft_db (st (process_adsb_message stm message args now s)) !! hex = Some stored
    /\ (forall key v, parsed !! key = Some v -> v <> VNone -> v <> VStr "" ->
        stored !! key = Some v)
    /\ (forall key,
        parsed !! key = None \/ parsed !! key = Some VNone
        \/ parsed !! key = Some (VStr "") ->
        stored !! key = default ∅ (aircraft_db s !! hex) !! key).
Proof.
  intros Hp Hg. exists (merged s hex parsed).
  rewrite process_aircraft_db, Hp, Hg, (parsed_hex_ident _ _ _ Hp Hg).
  split; [apply lookup_insert_eq|]. unfold merged. split.
  - intros key v Hv Hn He. rewrite merge_fields_lookup, Hv.
    destruct (present v) eqn:E; [reflexivity|].
    apply present_false in E as [E|E]; contradiction.
  - intros key H. rewrite merge_fields_lookup.
    destruct H as [->|[->| ->]]; reflexivity.
Qed.

(** C9. Merging the same record twice gives the stored record that
    merging it once gives; and processing the same line twice leaves the
    aircraft table as processing it once does. *)
Theorem merge_is_idempotent stm message args now now' s aircraft parsed :
  merge_fields (merge_fields aircraft parsed) parsed = merge_fields aircraft parsed
  /\ aircraft_db (st (process_adsb_message stm message args now'
                        (st (process_adsb_message stm message args now s))))
     = aircraft_db (st (process_adsb_message stm message args now s)).
Proof.
  split; [apply merge_fields_idempotent|].
  rewrite (process_aircraft_db stm message args now').
  rewrite (process_aircraft_db stm message args now s).
  destruct (parse_adsb_message message) as [[p|]|e]; try reflexivity.
  destruct (get p "hex_ident") as [|hex| | |]; try reflexivity.
  destruct (bool_decide (p = ∅) || String.eqb hex ""); [reflexivity|].
  rewrite lookup_insert_eq. simpl.
  now rewrite merge_fields_idempotent, insert_insert_eq.
Qed.




End DispatchClaims.

(** *** Clock readings in whole seconds *)










(** C4 at the position report, merged into an empty table. *)
Lemma merge_keeps_known_fields_witness :
  let parsed := the_record (parse_adsb_message (B := Float64.builtins) Sample.report) in
  parse_adsb_message Sample.report = Returned (Some parsed)
  /\ get parsed "hex_ident" = VStr "ABC123"
  /\ exists stored,
      aircraft_db (st (process_adsb_message true Sample.report Sample.console
          (Float64.seconds 1301)
                         Sample.fresh)) !! "ABC123" = Some stored
      /\ (forall key v, parsed !! key = Some v -> v <> VNone -> v <> VStr "" ->
          stored !! key = Some v)
      /\ (forall key,
          parsed !! key = None \/ parsed !! key = Some VNone
          \/ parsed !! key = Some (VStr "") ->
          stored !! key = default ∅ (aircraft_db Sample.fresh !! "ABC123") !! key).
Proof.
  intros parsed.
  assert (H1 : parse_adsb_message Sample.report = Returned (Some parsed)).
  { apply record_returned. vm_compute. reflexivity. }
  assert (H2 : get parsed "hex_ident" = VStr "ABC123").
  { vm_compute. reflexivity. }
  split; [exact H1|]. split; [exact H2|].
  exact (merge_keeps_known_fields true Sample.report Sample.console (Float64.seconds 1301)
           Sample.fresh parsed "ABC123" H1 H2).
Defined.

(** C2. An aircraft on the equator: after the merge its record holds the
    latitude 0.0 and a call sign, both neither [None] nor empty, yet the
    truth test of the dispatch condition takes 0.0 for false, so nothing
    is sent although nothing was ever sent for it. The same aircraft at
    latitude 51.5 is reported. *)
Theorem equator_is_not_reported :
  let r := process_adsb_message (B := Float64.builtins) true Sample.equator
             Sample.console (Float64.seconds 1000) Sample.fresh in
  let stored := default ∅ (aircraft_db (st r) !! "ABC123") in
  field_of (parse_adsb_message Sample.equator) "lat" = Some (VFloat Float64.zero)
  /\ stored !! "lat" = Some (VFloat Float64.zero)
  /\ stored !! "callsign" = Some (VStr "BAW123 ")
  /\ present (get stored "lat") = true
  /\ present (get stored "callsign") = true
  /\ reportable stored = false
  /\ raised r = None
  /\ out r = []
  /\ last_sent_time (st r) !! "ABC123" = None
  /\ out (process_adsb_message (B := Float64.builtins) true Sample.report
            Sample.console (Float64.seconds 1000) Sample.fresh)
     = [Simulated "BAW123 38000ft 51.50N/0.10W"].
Proof.
  cbv zeta.
  repeat (split; [vm_compute; reflexivity|]).
  vm_compute. reflexivity.
Qed.

(** ** The stream reader *)

Lemma connect_loop_exhausted (script : list session) (n : Z) (b : bool) :
  CONNECT_ATTEMPT_LIMIT <= n -> connect_loop script n b = ([], Exhausted script).
Proof.
  intros H. assert (E : (n <? CONNECT_ATTEMPT_LIMIT) = false) by now apply Z.ltb_ge.
  destruct script; simpl; now rewrite E.
Qed.

Lemma connect_loop_cons (x : session) (script : list session) (n : Z) (b : bool) :
  n < CONNECT_ATTEMPT_LIMIT ->
  connect_loop (x :: script) n b =
  let '(evs, failed, b') := attempt x b in
  let n' := if failed then n + 1 else n in
  let pause := if failed && (n' <? CONNECT_ATTEMPT_LIMIT)
               then [Sleep CONNECT_ATTEMPT_DELAY] else [] in
  let closing := if b' then [Close] else [] in
  let '(later, status) := connect_loop script n' b' in
  (evs ++ pause ++ closing ++ later, status).
Proof.
  intros H. assert (E : (n <? CONNECT_ATTEMPT_LIMIT) = true) by now apply Z.ltb_lt.
  simpl. now rewrite E.
Qed.

(** A connected phase that ends in a zero-length read raises nothing. *)
Lemma recv_loop_peer_closed (buffer : string) (chunks : list string) :
  snd (recv_loop buffer chunks PeerClosed) = false.
Proof.
  revert buffer. induction chunks as [|data chunks IH]; intros buffer; simpl.
  - reflexivity.
  - destruct (String.eqb data ""); [reflexivity|].
    destruct (take_lines (buffer +:+ data)) as [lines buffer'].
    specialize (IH buffer'). now destruct (recv_loop buffer' chunks PeerClosed).
Qed.

(** One that ends in [socket.error] out of [recv] raises it, when no
    chunk before decodes to the empty string. *)
Lemma recv_loop_error (buffer : string) (chunks : list string) :
  Forall (fun data => data <> "") chunks ->
  snd (recv_loop buffer chunks RecvError) = true.
Proof.
  intros H. revert buffer. induction H as [|data chunks Hd _ IH]; intros buffer; simpl.
  - reflexivity.
  - destruct (String.eqb_spec data ""); [contradiction|].
    destruct (take_lines (buffer +:+ data)) as [lines buffer'].
    specialize (IH buffer'). now destruct (recv_loop buffer' chunks RecvError).
Qed.

Lemma attempt_failed (x : session) (b : bool) : snd (fst (attempt x b)) = fails x.
Proof.
  destruct x as [| |chunks last]; simpl; try reflexivity.
  now destruct (recv_loop "" chunks last).
Qed.

Lemma errors_nonneg (script : list session) : 0 <= errors script.
Proof. induction script as [|x script IH]; simpl; [lia|]. destruct (fails x); lia. Qed.

(** The counter after a stretch of the script is the counter before it
    plus the sessions of the stretch that ended in [socket.error]; a
    connection made in between changes nothing. *)
Lemma connect_loop_counts (pre rest : list session) :
  forall (n : Z) (b : bool),
  n + errors pre < CONNECT_ATTEMPT_LIMIT ->
  exists b', snd (connect_loop (pre ++ rest) n b)
             = snd (connect_loop rest (n + errors pre) b').
Proof.
  induction pre as [|x pre IH]; intros n b H; simpl in H.
  - exists b. simpl. now rewrite Z.add_0_r.
  - pose proof (errors_nonneg pre) as Hpos.
    assert (Hn : n < CONNECT_ATTEMPT_LIMIT) by (destruct (fails x); lia).
    simpl app. rewrite (connect_loop_cons _ _ _ _ Hn).
    pose proof (attempt_failed x b) as Hf.
    destruct (attempt x b) as [[evs failed] b1]. simpl in Hf. subst failed.
    destruct (IH (if fails x then n + 1 else n) b1) as [b' Hb'].
    { destruct (fails x); lia. }
    exists b'. cbv beta iota zeta.
    destruct (connect_loop (pre ++ rest) _ b1) as [later status].
    simpl in *. rewrite Hb'. f_equal. f_equal. destruct (fails x); lia.
Qed.

Lemma accept_and_close_forever (k : nat) (b : bool) :
  connect_loop (repeat (Connected [] PeerClosed) k) 0 b
  = (concat (repeat [Connect; Close] k), Waiting 0 (b || negb (k =? 0)%nat)).
Proof.
  revert b. induction k as [|k IH]; intros b.
  - simpl. now rewrite orb_false_r.
  - change (repeat (Connected [] PeerClosed) (S k))
      with (Connected [] PeerClosed :: repeat (Connected [] PeerClosed) k).
    rewrite connect_loop_cons by reflexivity. simpl attempt. cbv beta iota zeta.
    rewrite (IH true). simpl. now rewrite orb_true_r.
Qed.

(** C5. A pass that ends in a zero-length read goes on to the next pass
    with the attempt counter as it was and without sleeping, where a
    failed connect adds one to the counter and sleeps; so against a server
    that accepts and closes at once the reader connects again and again,
    its counter staying at 0, and never gives up. *)
Theorem clean_close_costs_no_attempt :
  (forall chunks rest n b, n < CONNECT_ATTEMPT_LIMIT ->
     connect_loop (Connected chunks PeerClosed :: rest) n b =
     (Connect :: fst (recv_loop "" chunks PeerClosed)
        ++ Close :: fst (connect_loop rest n true),
      snd (connect_loop rest n true)))
  /\ (forall rest n b, n < CONNECT_ATTEMPT_LIMIT ->
     connect_loop (ConnectFails :: rest) n b =
     (Connect :: (if n + 1 <? CONNECT_ATTEMPT_LIMIT
                  then [Sleep CONNECT_ATTEMPT_DELAY] else [])
        ++ Close :: fst (connect_loop rest (n + 1) true),
      snd (connect_loop rest (n + 1) true)))
  /\ (forall k : nat,
     connect_to_dump1090 (repeat (Connected [] PeerClosed) k)
     = (concat (repeat [Connect; Close] k), Waiting 0 (negb (k =? 0)%nat))).
Proof.
  split; [|split].
  - intros chunks rest n b Hn. rewrite connect_loop_cons by exact Hn.
    simpl attempt. pose proof (recv_loop_peer_closed "" chunks) as Hc.
    destruct (recv_loop "" chunks PeerClosed) as [evs failed]. simpl in Hc.
    subst failed. cbv beta iota zeta. simpl.
    destruct (connect_loop rest n true) as [later status]. reflexivity.
  - intros rest n b Hn. rewrite connect_loop_cons by exact Hn.
    simpl attempt. cbv beta iota zeta. simpl.
    destruct (connect_loop rest (n + 1) true) as [later status]. simpl.
    now destruct (n + 1 <? CONNECT_ATTEMPT_LIMIT).
  - intros k. unfold connect_to_dump1090. now rewrite accept_and_close_forever.
Qed.

(** C5 at a first pass, and at a thousand clean closes in a row. *)
Lemma clean_close_costs_no_attempt_witness :
  0 < CONNECT_ATTEMPT_LIMIT
  /\ connect_loop [Sample.accept_and_close; ConnectFails] 0 false
     = ([Connect; Close; Connect; Sleep 5; Close], Waiting 1 true)
  /\ snd (connect_to_dump1090 (repeat Sample.accept_and_close 1000)) = Waiting 0 true.
Proof.
  assert (H : 0 < CONNECT_ATTEMPT_LIMIT) by reflexivity.
  split; [exact H|]. split.
  - exact (proj1 clean_close_costs_no_attempt [] [ConnectFails] 0 false H).
  - exact (f_equal snd (proj2 (proj2 clean_close_costs_no_attempt) 1000%nat)).
Defined.

(** C6. When every connect fails, the reader makes exactly
    [CONNECT_ATTEMPT_LIMIT] = 10 attempts, sleeping
    [CONNECT_ATTEMPT_DELAY] = 5 seconds between one and the next, yields
    no line, and returns; whatever the network would do after that is
    never tried. Before the tenth failure it has not returned. *)
Theorem reader_gives_up_after_ten_failures :
  CONNECT_ATTEMPT_LIMIT = 10 /\ CONNECT_ATTEMPT_DELAY = 5
  /\ (forall rest,
      connect_to_dump1090 (repeat ConnectFails 10 ++ rest)
      = (concat (repeat [Connect; Sleep 5; Close] 9) ++ [Connect; Close],
         Exhausted rest))
  /\ (forall n, (n < 10)%nat ->
      snd (connect_to_dump1090 (repeat ConnectFails n))
      = Waiting (Z.of_nat n) (negb (n =? 0)%nat)).
Proof.
  split; [reflexivity|]. split; [reflexivity|]. split.
  - intros rest. unfold connect_to_dump1090.
    do 10 (simpl app; rewrite connect_loop_cons by reflexivity; simpl attempt; cbv beta iota zeta).
    rewrite connect_loop_exhausted by (vm_compute; discriminate). reflexivity.
  - intros n Hn.
    do 10 (destruct n as [|n]; [vm_compute; reflexivity|]). lia.
Qed.

(** C6 with more of the network after the tenth failure, and at three
    failures. *)
Lemma reader_gives_up_after_ten_failures_witness :
  (3 < 10)%nat
  /\ snd (connect_to_dump1090 (repeat ConnectFails 10 ++ [Sample.accept_and_close]))
     = Exhausted [Sample.accept_and_close]
  /\ snd (connect_to_dump1090 (repeat ConnectFails 3)) = Waiting 3 true.
Proof.
  assert (H : (3 < 10)%nat) by lia.
  split; [exact H|]. split.
  - exact (f_equal snd (proj1 (proj2 (proj2 reader_gives_up_after_ten_failures))
                          [Sample.accept_and_close])).
  - exact (proj2 (proj2 (proj2 reader_gives_up_after_ten_failures)) 3%nat H).
Defined.

(** C10. The attempt counter counts every pass that ends in
    [socket.error], whether the error came from the connect or from a read
    on a connection already made, and no connection resets it: while
    fewer than ten such passes have happened the reader is still running
    with the counter at their number, and the tenth makes it return, with
    any number of successful connections in between. *)
Theorem attempt_counter_is_cumulative (script : list session) :
  (errors script < CONNECT_ATTEMPT_LIMIT ->
   exists b, snd (connect_to_dump1090 script) = Waiting (errors script) b)
  /\ (forall pre x rest, script = pre ++ x :: rest ->
      errors pre = CONNECT_ATTEMPT_LIMIT - 1 -> fails x = true ->
      snd (connect_to_dump1090 script) = Exhausted rest)
  /\ (forall chunks, Forall (fun data => data <> "") chunks ->
      fails (Connected chunks RecvError) = true)
  /\ (forall chunks, fails (Connected chunks PeerClosed) = false).
Proof.
  unfold connect_to_dump1090. split; [|split; [|split]].
  - intros H.
    destruct (connect_loop_counts script [] 0 false) as [b Hb]; [exact H|].
    rewrite app_nil_r, Z.add_0_l in Hb. exists b. rewrite Hb. simpl.
    apply Z.ltb_lt in H. now rewrite H.
  - intros pre x rest -> Hpre Hx.
    destruct (connect_loop_counts pre (x :: rest) 0 false) as [b Hb].
    { rewrite Hpre. reflexivity. }
    rewrite Z.add_0_l in Hb.
    rewrite Hb, Hpre. rewrite connect_loop_cons by reflexivity.
    pose proof (attempt_failed x b) as Hf. rewrite Hx in Hf.
    destruct (attempt x b) as [[evs failed] b1]. simpl in Hf. subst failed.
    cbv beta iota zeta. rewrite connect_loop_exhausted by (vm_compute; discriminate).
    reflexivity.
  - intros chunks. apply recv_loop_error.
  - intros chunks. apply recv_loop_peer_closed.
Qed.

(** C10 at ten connections that each deliver a line and then break, with
    clean closes in between. *)
Lemma attempt_counter_is_cumulative_witness :
  let pre := concat (repeat [Sample.line_then_reset; Sample.accept_and_close] 9) in
  errors [Sample.line_then_reset; Sample.accept_and_close] < CONNECT_ATTEMPT_LIMIT
  /\ errors pre = CONNECT_ATTEMPT_LIMIT - 1
  /\ fails Sample.line_then_reset = true
  /\ (exists b, snd (connect_to_dump1090 [Sample.line_then_reset; Sample.accept_and_close])
                = Waiting 1 b)
  /\ snd (connect_to_dump1090 (pre ++ Sample.line_then_reset :: [ConnectFails]))
     = Exhausted [ConnectFails].
Proof.
  intros pre.
  assert (H1 : errors [Sample.line_then_reset; Sample.accept_and_close]
               < CONNECT_ATTEMPT_LIMIT) by reflexivity.
  assert (H2 : errors pre = CONNECT_ATTEMPT_LIMIT - 1) by reflexivity.
  assert (H3 : fails Sample.line_then_reset = true) by reflexivity.
  split; [exact H1|]. split; [exact H2|]. split; [exact H3|]. split.
  - exact (proj1 (attempt_counter_is_cumulative _) H1).
  - exact (proj1 (proj2 (attempt_counter_is_cumulative _)) pre _ _ eq_refl H2 H3).
Defined.

(** * Further properties *)

(** ** White space around a line *)

Lemma rstrip_all_space (w : string) : Str2.all_space w = true -> Str.rstrip w = EmptyString.
Proof.
  induction w as [|c w IH]; simpl; [reflexivity|].
  intros H. apply andb_prop in H as [Hc Hw]. now rewrite (IH Hw), Hc.
Qed.

Lemma rstrip_app_space (s w : string) :
  Str2.all_space w = true -> Str.rstrip (s +:+ w) = Str.rstrip s.
Proof.
  intros Hw. induction s as [|c s IH]; simpl.
  - now apply rstrip_all_space.
  - now rewrite IH.
Qed.

Lemma lstrip_app_space (w s : string) :
  Str2.all_space w = true -> Str.lstrip (w +:+ s) = Str.lstrip s.
Proof.
  induction w as [|c w IH]; simpl; [reflexivity|].
  intros H. apply andb_prop in H as [Hc Hw]. now rewrite Hc, IH.
Qed.

Lemma rstrip_empty_all_space (s : string) :
  Str.rstrip s = EmptyString -> Str2.all_space s = true.
Proof.
  induction s as [|c s IH]; simpl; [reflexivity|].
  destruct (Str.rstrip s); [|discriminate].
  destruct (Str.is_space c); [|discriminate]. intros _. now apply IH.
Qed.

Lemma all_space_app (a b : string) :
  Str2.all_space a = true -> Str2.all_space b = true -> Str2.all_space (a +:+ b) = true.
Proof.
  induction a as [|c a IH]; simpl; [auto|].
  intros H Hb. apply andb_prop in H as [Hc Ha]. now rewrite Hc, IH.
Qed.

Lemma rstrip_space_app (w s : string) :
  Str2.all_space w = true -> Str.lstrip (Str.rstrip (w +:+ s)) = Str.lstrip (Str.rstrip s).
Proof.
  intros Hw. destruct (Str.rstrip s) as [|r0 r] eqn:E.
  - rewrite rstrip_all_space; [reflexivity|].
    apply all_space_app; [exact Hw|now apply rstrip_empty_all_space].
  - assert (H : Str.rstrip (w +:+ s) = w +:+ String r0 r).
    { clear Hw. induction w as [|c w IH]; simpl; [exact E|].
      rewrite IH. now destruct w. }
    rewrite H. now apply lstrip_app_space.
Qed.

Lemma strip_padded (w1 s w2 : string) :
  Str2.all_space w1 = true -> Str2.all_space w2 = true ->
  Str.strip (w1 +:+ s +:+ w2) = Str.strip s.
Proof.
  intros H1 H2. unfold Str.strip.
  rewrite (rstrip_space_app w1 (s +:+ w2) H1). now rewrite rstrip_app_space.
Qed.

Section ParserExtras.

Context {pyfloat : Type} {B : PyBuiltins pyfloat}.

Local Abbreviation value := (value pyfloat).

Implicit Types (m d : gmap string value) (key k : string).

Ltac split_22 parts H :=
  do 22 (destruct parts as [|? parts]; [discriminate H|]);
  destruct parts; [clear H|discriminate H].

Ltac not_listed :=
  let H := fresh in
  intros H; repeat (apply elem_of_cons in H as [H|H]; [discriminate H|]);
  now apply elem_of_nil in H.

Ltac each_of Hk tac :=
  repeat (apply elem_of_cons in Hk as [->|Hk]; [tac|]);
  try (now apply elem_of_nil in Hk).

(** X5. White space before and after a line, such as the carriage return
    a CRLF stream leaves at its end, does not change what the parser
    makes of it. *)
Theorem parse_ignores_padding (w1 line w2 : string) :
  Str2.all_space w1 = true -> Str2.all_space w2 = true ->
  parse_adsb_message (w1 +:+ line +:+ w2) = parse_adsb_message line.
Proof.
  intros H1 H2. unfold parse_adsb_message. now rewrite strip_padded.
Qed.

Lemma make_msg_data_lookup parts (i : nat) key :
  SBS1_FIELDS !! i = Some key -> length parts = 22%nat ->
  make_msg_data (pyfloat := pyfloat) parts !! key = Some (or_none (nth i parts "")).
Proof.
  intros Hi Hlen. split_22 parts Hlen.
  do 22 (destruct i as [|i]; [injection Hi as <-; reflexivity|]).
  discriminate Hi.
Qed.

Lemma make_msg_data_values parts k v :
  make_msg_data (pyfloat := pyfloat) parts !! k = Some v ->
  k ∈ SBS1_FIELDS /\ exists field, v = or_none field.
Proof.
  unfold make_msg_data.
  assert (H : forall (l : list (string * string)) (acc : gmap string value),
             fold_left (fun d kv => <[fst kv := or_none (snd kv)]> d) l acc !! k = Some v ->
             acc !! k = Some v \/ (k ∈ map fst l /\ exists field, v = or_none field)).
  { induction l as [|[a b] l IH]; intros acc Hl; simpl in *; [now left|].
    destruct (IH _ Hl) as [Ha|[Hk Hv]].
    - destruct (decide (a = k)) as [->|Hne].
      + rewrite lookup_insert_eq in Ha. injection Ha as <-.
        right. split; [apply list_elem_of_here|eauto].
      + rewrite lookup_insert_ne in Ha by exact Hne. now left.
    - right. split; [now apply list_elem_of_further|exact Hv]. }
  intros Hl. destruct (H _ _ Hl) as [He|[Hk Hv]].
  - now rewrite lookup_empty in He.
  - split; [|exact Hv]. clear -Hk. revert Hk. generalize SBS1_FIELDS.
    induction parts as [|p parts IH]; intros [|x xs] Hk; simpl in Hk;
      try (now apply elem_of_nil in Hk).
    apply elem_of_cons in Hk as [->|Hk]; [apply list_elem_of_here|].
    apply list_elem_of_further. now apply IH.
Qed.

(** What one pass of each loop body leaves under its key. *)
Lemma cast_int_at m key m' :
  cast_int m key = Returned m' -> m' !! key = int_cast_value <$> m !! key.
Proof.
  unfold cast_int, int_cast_value, get.
  destruct (m !! key) as [v|] eqn:E; simpl.
  - destruct (truthy v); [|intros H; injection H as <-; now rewrite E].
    destruct (py_int v) as [z|[]]; intros H; try discriminate H;
      injection H as <-; [apply lookup_insert_eq|now rewrite E|now rewrite E].
  - intros H. injection H as <-. now rewrite E.
Qed.

Lemma cast_float_at m key m' :
  cast_float m key = Returned m' -> m' !! key = float_cast_value <$> m !! key.
Proof.
  unfold cast_float, float_cast_value, get.
  destruct (m !! key) as [v|] eqn:E; simpl.
  - destruct (truthy v); [|intros H; injection H as <-; now rewrite E].
    destruct (py_float v) as [z|[]]; intros H; try discriminate H;
      injection H as <-; [apply lookup_insert_eq|now rewrite E|now rewrite E].
  - intros H. injection H as <-. now rewrite E.
Qed.

Lemma cast_bool_at m key m' :
  cast_bool m key = Returned m' -> m' !! key = bool_cast_value <$> m !! key.
Proof.
  unfold cast_bool, bool_cast_value, get.
  destruct (m !! key) as [v|] eqn:E; simpl.
  - destruct (truthy v); [|intros H; injection H as <-; now rewrite E].
    destruct (py_int v) as [z|e]; intros H; [|discriminate H].
    injection H as <-. apply lookup_insert_eq.
  - intros H. injection H as <-. now rewrite E.
Qed.

Lemma for_each_at body (f : value -> value) keys :
  frames body ->
  (forall m key m', body m key = Returned m' -> m' !! key = f <$> m !! key) ->
  NoDup keys ->
  forall m m', for_each body keys m = Returned m' ->
  forall k, k ∈ keys -> m' !! k = f <$> m !! k.
Proof.
  intros Hf Hat. induction keys as [|key keys IH]; intros Hnd m m' H k Hk.
  - now apply elem_of_nil in Hk.
  - apply NoDup_cons in Hnd as [Hnotin Hnd]. simpl in H.
    destruct (body m key) as [m1|e] eqn:E; [|discriminate].
    change (for_each body keys m1 = Returned m') in H.
    apply elem_of_cons in Hk as [->|Hk].
    + rewrite (for_each_frames _ _ Hf _ _ H key Hnotin). now apply Hat.
    + rewrite (IH Hnd _ _ H k Hk).
      rewrite (Hf _ _ _ E k); [reflexivity|]. intros ->. contradiction.
Qed.

Lemma field_kinds_disjoint k :
  (k ∈ INT_FIELDS -> (k ∉ FLOAT_FIELDS) /\ (k ∉ BOOL_FIELDS))
  /\ (k ∈ FLOAT_FIELDS -> (k ∉ INT_FIELDS) /\ (k ∉ BOOL_FIELDS))
  /\ (k ∈ BOOL_FIELDS -> (k ∉ INT_FIELDS) /\ (k ∉ FLOAT_FIELDS)).
Proof.
  unfold INT_FIELDS, FLOAT_FIELDS, BOOL_FIELDS.
  split; [|split]; intros Hk; each_of Hk ltac:(split; not_listed).
Qed.

(** The record the parser returns, field by field: what the comprehension
    stored, cast by the loop the field belongs to. *)
Lemma parse_record line d :
  parse_adsb_message line = Returned (Some d) ->
  forall k, d !! k = cast_value k <$> make_msg_data (fields line) !! k.
Proof.
  rewrite parse_unfold.
  destruct (length (fields line) =? 22)%nat; [|discriminate].
  destruct (String.eqb (hd "" (fields line)) "MSG"); [|discriminate].
  cbn [andb]. intros H k.
  destruct (for_each cast_int INT_FIELDS _) as [m1|] eqn:E1; [|discriminate].
  rewrite bind_returned in H.
  destruct (for_each cast_float FLOAT_FIELDS m1) as [m2|] eqn:E2; [|discriminate].
  rewrite bind_returned in H.
  destruct (for_each cast_bool BOOL_FIELDS m2) as [m3|] eqn:E3; [|discriminate].
  rewrite bind_returned in H. injection H as <-.
  destruct (field_kinds_disjoint k) as (Hi & Hf & Hb). unfold cast_value.
  destruct (decide (k ∈ INT_FIELDS)) as [Hk|Hk].
  - rewrite (bool_decide_eq_true_2 _ Hk). destruct (Hi Hk) as [Hnf Hnb].
    rewrite (for_each_frames _ _ cast_bool_frames _ _ E3 k Hnb).
    rewrite (for_each_frames _ _ cast_float_frames _ _ E2 k Hnf).
    exact (for_each_at _ _ _ cast_int_frames cast_int_at nodup_int_fields _ _ E1 k Hk).
  - rewrite (bool_decide_eq_false_2 _ Hk).
    destruct (decide (k ∈ FLOAT_FIELDS)) as [Hk'|Hk'].
    + rewrite (bool_decide_eq_true_2 _ Hk'). destruct (Hf Hk') as [_ Hnb].
      rewrite (for_each_frames _ _ cast_bool_frames _ _ E3 k Hnb).
      rewrite (for_each_at _ _ _ cast_float_frames cast_float_at nodup_float_fields
                 _ _ E2 k Hk').
      now rewrite (for_each_frames _ _ cast_int_frames _ _ E1 k Hk).
    + rewrite (bool_decide_eq_false_2 _ Hk').
      destruct (decide (k ∈ BOOL_FIELDS)) as [Hk''|Hk''].
      * rewrite (bool_decide_eq_true_2 _ Hk'').
        rewrite (for_each_at _ _ _ cast_bool_frames cast_bool_at nodup_bool_fields
                   _ _ E3 k Hk'').
        rewrite (for_each_frames _ _ cast_float_frames _ _ E2 k Hk').
        now rewrite (for_each_frames _ _ cast_int_frames _ _ E1 k Hk).
      * rewrite (bool_decide_eq_false_2 _ Hk'').
        rewrite (for_each_frames _ _ cast_bool_frames _ _ E3 k Hk'').
        rewrite (for_each_frames _ _ cast_float_frames _ _ E2 k Hk').
        rewrite (for_each_frames _ _ cast_int_frames _ _ E1 k Hk).
        now destruct (make_msg_data (fields line) !! k).
Qed.

Lemma int_cast_or_none field : int_cast_value (or_none field) = int_field field.
Proof.
  unfold int_cast_value, or_none, int_field.
  destruct (String.eqb field "") eqn:E; [reflexivity|].
  simpl. rewrite E. simpl. now destruct (int_of_str field).
Qed.

Lemma float_cast_or_none field : float_cast_value (or_none field) = float_field field.
Proof.
  unfold float_cast_value, or_none, float_field.
  destruct (String.eqb field "") eqn:E; [reflexivity|].
  simpl. rewrite E. simpl. now destruct (float_of_str field).
Qed.

Lemma flag_index (i : nat) key :
  SBS1_FIELDS !! i = Some key -> key ∈ BOOL_FIELDS -> (18 <= i < 22)%nat.
Proof.
  intros Hi Hk. unfold BOOL_FIELDS in Hk.
  each_of Hk ltac:(do 22 (destruct i as [|i]; [try discriminate Hi; lia|]);
                   discriminate Hi).
Qed.

Lemma flags_castable parts (i : nat) :
  length parts = 22%nat -> forallb castable_flag (skipn 18 parts) = true ->
  (18 <= i < 22)%nat -> castable_flag (nth i parts "") = true.
Proof.
  intros Hlen Hf Hi. split_22 parts Hlen. simpl in Hf.
  repeat (apply andb_prop in Hf as [? Hf]).
  do 18 (destruct i as [|i]; [lia|]).
  do 4 (destruct i as [|i]; [assumption|]). lia.
Qed.

(** X1. On a 22-field [MSG] line whose flags are empty or numerals, the
    record holds under each integer field the number [int] reads from its
    text, under each float field the number [float] reads, the text
    itself where the builtin rejects it, and [None] where the field is
    empty. *)
Theorem parse_numeric_fields line :
  length (fields line) = 22%nat -> hd "" (fields line) = "MSG" ->
  forallb castable_flag (skipn 18 (fields line)) = true ->
  exists d, parse_adsb_message line = Returned (Some d)
    /\ (forall (i : nat) key, SBS1_FIELDS !! i = Some key -> key ∈ INT_FIELDS ->
        d !! key = Some (int_field (nth i (fields line) "")))
    /\ (forall (i : nat) key, SBS1_FIELDS !! i = Some key -> key ∈ FLOAT_FIELDS ->
        d !! key = Some (float_field (nth i (fields line) ""))).
Proof.
  intros Hlen Hmsg Hflags.
  destruct (parse_returns line Hlen Hmsg Hflags) as [d Hd]. exists d.
  split; [exact Hd|]. pose proof (parse_record line d Hd) as Hr.
  split; intros i key Hi Hk; rewrite Hr, (make_msg_data_lookup _ i key Hi Hlen);
    unfold cast_value; simpl.
  - rewrite (bool_decide_eq_true_2 _ Hk). now rewrite int_cast_or_none.
  - destruct (field_kinds_disjoint key) as (_ & Hf & _). destruct (Hf Hk) as [Hni _].
    rewrite (bool_decide_eq_false_2 _ Hni), (bool_decide_eq_true_2 _ Hk).
    now rewrite float_cast_or_none.
Qed.

(** X2. On such a line each flag of the record is [None] when its field
    is empty, and otherwise the truth value of the number [int] reads
    from it: false for zero, true for any other number. *)
Theorem parse_flag_fields line :
  length (fields line) = 22%nat -> hd "" (fields line) = "MSG" ->
  forallb castable_flag (skipn 18 (fields line)) = true ->
  exists d, parse_adsb_message line = Returned (Some d)
    /\ forall (i : nat) key, SBS1_FIELDS !! i = Some key -> key ∈ BOOL_FIELDS ->
       (nth i (fields line) "" = "" /\ d !! key = Some VNone)
       \/ (exists z, nth i (fields line) "" <> ""
                     /\ int_of_str (nth i (fields line) "") = Some z
                     /\ d !! key = Some (VBool (negb (z =? 0)))).
Proof.
  intros Hlen Hmsg Hflags.
  destruct (parse_returns line Hlen Hmsg Hflags) as [d Hd]. exists d.
  split; [exact Hd|]. intros i key Hi Hk.
  rewrite (parse_record line d Hd), (make_msg_data_lookup _ i key Hi Hlen).
  pose proof (flags_castable _ i Hlen Hflags (flag_index i key Hi Hk)) as Hc.
  destruct (field_kinds_disjoint key) as (_ & _ & Hb). destruct (Hb Hk) as [Hni Hnf].
  unfold cast_value.
  rewrite (bool_decide_eq_false_2 _ Hni), (bool_decide_eq_false_2 _ Hnf),
          (bool_decide_eq_true_2 _ Hk).
  unfold castable_flag in Hc. unfold bool_cast_value, or_none. simpl.
  destruct (String.eqb_spec (nth i (fields line) "") "") as [He|Hne].
  - left. now split.
  - right. simpl in Hc. apply bool_decide_eq_true in Hc as [z Hz]. exists z.
    split; [exact Hne|]. split; [exact Hz|]. simpl.
    destruct (String.eqb_spec (nth i (fields line) "") ""); [contradiction|].
    simpl. now rewrite Hz.
Qed.

Lemma cast_value_not_empty k field : cast_value k (or_none field) <> VStr "".
Proof.
  unfold cast_value, int_cast_value, float_cast_value, bool_cast_value, or_none.
  destruct (String.eqb_spec field "") as [He|Hne].
  - repeat (destruct (bool_decide _)); simpl; discriminate.
  - assert (Ht : truthy (VStr (F := pyfloat) field) = true).
    { simpl. now destruct (String.eqb_spec field ""). }
    repeat (destruct (bool_decide _)); rewrite ?Ht; simpl;
      try (destruct (int_of_str field)); try (destruct (float_of_str field));
      try discriminate; intros H; injection H as H; contradiction.
Qed.

(** X3. Every record the parser returns has the 22 field names as its
    keys and no others, holds the empty string nowhere, and holds under
    each field that is not cast the text of the field, or [None] where the
    field is empty. *)
Theorem parse_text_fields line d :
  parse_adsb_message line = Returned (Some d) ->
  (forall k, is_Some (d !! k) <-> k ∈ SBS1_FIELDS)
  /\ (forall k, d !! k <> Some (VStr ""))
  /\ (forall (i : nat) key, SBS1_FIELDS !! i = Some key ->
      key ∉ INT_FIELDS -> key ∉ FLOAT_FIELDS -> key ∉ BOOL_FIELDS ->
      d !! key = Some (or_none (nth i (fields line) ""))).
Proof.
  intros Hd. pose proof (parse_record line d Hd) as Hr.
  destruct (parse_inv line d Hd) as (Hlen & _ & _).
  split; [|split].
  - intros k. rewrite Hr. split.
    + intros [v Hv]. destruct (make_msg_data (fields line) !! k) as [v0|] eqn:E;
        [|discriminate]. now apply make_msg_data_values in E as [E _].
    + intros Hk. apply list_elem_of_lookup in Hk as [i Hi].
      rewrite (make_msg_data_lookup _ i k Hi Hlen). simpl. eauto.
  - intros k. rewrite Hr.
    destruct (make_msg_data (fields line) !! k) as [v0|] eqn:E; [|discriminate].
    apply make_msg_data_values in E as [_ [field ->]]. simpl.
    intros H. injection H as H. now apply cast_value_not_empty in H.
  - intros i key Hi Hni Hnf Hnb.
    rewrite Hr, (make_msg_data_lookup _ i key Hi Hlen). unfold cast_value.
    now rewrite !bool_decide_eq_false_2.
Qed.

Lemma for_each_raised body keys :
  frames body -> NoDup keys ->
  forall m e, for_each body keys m = Raised e ->
  exists k mk, k ∈ keys /\ get mk k = get m k /\ body mk k = Raised e.
Proof.
  intros Hf. induction keys as [|key keys IH]; intros Hnd m e H; simpl in H.
  - discriminate.
  - apply NoDup_cons in Hnd as [Hnotin Hnd].
    destruct (body m key) as [m1|e1] eqn:E.
    + change (for_each body keys m1 = Raised e) in H.
      destruct (IH Hnd _ _ H) as (k & mk & Hk & Hg & Hb).
      exists k, mk. split; [now apply list_elem_of_further|]. split; [|exact Hb].
      rewrite Hg. apply get_eq, (Hf _ _ _ E). intros ->. contradiction.
    + injection H as <-. exists key, m.
      split; [apply list_elem_of_here|]. now split.
Qed.

Lemma for_each_returned_each body keys :
  frames body -> NoDup keys ->
  forall m m', for_each body keys m = Returned m' ->
  forall k, k ∈ keys -> exists mk mk', get mk k = get m k /\ body mk k = Returned mk'.
Proof.
  intros Hf. induction keys as [|key keys IH]; intros Hnd m m' H k Hk; simpl in H.
  - now apply elem_of_nil in Hk.
  - apply NoDup_cons in Hnd as [Hnotin Hnd].
    destruct (body m key) as [m1|e1] eqn:E; [|discriminate].
    change (for_each body keys m1 = Returned m') in H.
    apply elem_of_cons in Hk as [->|Hk].
    + exists m, m1. now split.
    + destruct (IH Hnd _ _ H k Hk) as (mk & mk' & Hg & Hb).
      exists mk, mk'. split; [|exact Hb].
      rewrite Hg. apply get_eq, (Hf _ _ _ E). intros ->. contradiction.
Qed.

Lemma cast_bool_raised m key field e :
  get m key = or_none field -> cast_bool m key = Raised e ->
  e = ValueError /\ castable_flag field = false.
Proof.
  unfold cast_bool, or_none, castable_flag. intros ->.
  destruct (String.eqb field "") eqn:E; simpl; [discriminate|].
  rewrite E. simpl. destruct (int_of_str field) as [z|]; simpl; [discriminate|].
  intros H. injection H as <-. now split.
Qed.

Lemma cast_bool_returned m key field m' :
  get m key = or_none field -> cast_bool m key = Returned m' ->
  castable_flag field = true.
Proof.
  unfold cast_bool, or_none, castable_flag. intros ->.
  destruct (String.eqb field "") eqn:E; simpl; [reflexivity|].
  rewrite E. simpl. destruct (int_of_str field) as [z|]; simpl; [|discriminate].
  reflexivity.
Qed.

Lemma flag_key_index key :
  key ∈ BOOL_FIELDS -> exists i : nat, SBS1_FIELDS !! i = Some key.
Proof.
  intros Hk. unfold BOOL_FIELDS in Hk.
  each_of Hk ltac:(first [now exists 18%nat | now exists 19%nat
                         | now exists 20%nat | now exists 21%nat]).
Qed.

Lemma index_flag_key (i : nat) :
  (18 <= i < 22)%nat -> exists key, SBS1_FIELDS !! i = Some key /\ key ∈ BOOL_FIELDS.
Proof.
  intros Hi. do 18 (destruct i as [|i]; [lia|]).
  do 4 (destruct i as [|i];
        [eexists; split; [reflexivity|unfold BOOL_FIELDS;
           repeat (first [apply list_elem_of_here|apply list_elem_of_further])]|]). lia.
Qed.

Lemma flags_forallb parts :
  length parts = 22%nat ->
  (forall i : nat, (18 <= i < 22)%nat -> castable_flag (nth i parts "") = true) ->
  forallb castable_flag (skipn 18 parts) = true.
Proof.
  intros Hlen H. pose proof (H 18%nat) as H18. pose proof (H 19%nat) as H19.
  pose proof (H 20%nat) as H20. pose proof (H 21%nat) as H21. clear H.
  split_22 parts Hlen. simpl in *.
  rewrite H18, H19, H20, H21 by lia. reflexivity.
Qed.

(** The flags under the flag keys, after the two lenient loops. *)
Lemma flag_after_lenient parts m1 m2 key (i : nat) :
  length parts = 22%nat ->
  for_each cast_int INT_FIELDS (make_msg_data parts) = Returned m1 ->
  for_each cast_float FLOAT_FIELDS m1 = Returned m2 ->
  SBS1_FIELDS !! i = Some key -> key ∈ BOOL_FIELDS ->
  get m2 key = or_none (nth i parts "").
Proof.
  intros Hlen E1 E2 Hi Hk.
  destruct (field_kinds_disjoint key) as (_ & _ & Hb). destruct (Hb Hk) as [Hni Hnf].
  apply get_lookup.
  rewrite (for_each_frames _ _ cast_float_frames _ _ E2 key Hnf).
  rewrite (for_each_frames _ _ cast_int_frames _ _ E1 key Hni).
  now apply make_msg_data_lookup.
Qed.

Lemma parse_returned_flags line d :
  parse_adsb_message line = Returned (Some d) ->
  forallb castable_flag (skipn 18 (fields line)) = true.
Proof.
  intros Hd. destruct (parse_inv line d Hd) as (Hlen & _ & _).
  revert Hd. rewrite parse_unfold.
  destruct (length (fields line) =? 22)%nat; [|discriminate].
  destruct (String.eqb (hd "" (fields line)) "MSG"); [|discriminate].
  cbn [andb]. intros H.
  destruct (for_each cast_int INT_FIELDS _) as [m1|] eqn:E1; [|discriminate].
  rewrite bind_returned in H.
  destruct (for_each cast_float FLOAT_FIELDS m1) as [m2|] eqn:E2; [|discriminate].
  rewrite bind_returned in H.
  destruct (for_each cast_bool BOOL_FIELDS m2) as [m3|] eqn:E3; [|discriminate].
  apply flags_forallb; [exact Hlen|]. intros i Hi.
  destruct (index_flag_key i Hi) as (key & Hkey & Hk).
  destruct (for_each_returned_each _ _ cast_bool_frames nodup_bool_fields _ _ E3 key Hk)
    as (mk & mk' & Hg & Hb).
  apply (cast_bool_returned mk key _ mk'); [|exact Hb].
  rewrite Hg. now apply (flag_after_lenient _ m1 m2 key i).
Qed.

Lemma parse_raised line e :
  parse_adsb_message line = Raised e ->
  e = ValueError /\ length (fields line) = 22%nat /\ hd "" (fields line) = "MSG"
  /\ forallb castable_flag (skipn 18 (fields line)) = false.
Proof.
  rewrite parse_unfold.
  destruct (Nat.eqb_spec (length (fields line)) 22) as [Hlen|]; [|discriminate].
  destruct (String.eqb_spec (hd "" (fields line)) "MSG") as [Hmsg|]; [|discriminate].
  cbn [andb].
  destruct (lenient_loops_return (fields line)) as (m1 & m2 & E1 & E2 & _).
  rewrite E1, bind_returned, E2, bind_returned.
  destruct (for_each cast_bool BOOL_FIELDS m2) as [m3|e'] eqn:E3; [discriminate|].
  intros H. injection H as <-.
  destruct (for_each_raised _ _ cast_bool_frames nodup_bool_fields _ _ E3)
    as (key & mk & Hk & Hg & Hb).
  destruct (flag_key_index key Hk) as [i Hi].
  rewrite (flag_after_lenient _ m1 m2 key i Hlen E1 E2 Hi Hk) in Hg.
  destruct (cast_bool_raised mk key _ _ Hg Hb) as [-> Hc].
  split; [reflexivity|]. split; [exact Hlen|]. split; [exact Hmsg|].
  destruct (forallb castable_flag (skipn 18 (fields line))) eqn:Ef; [|reflexivity].
  rewrite (flags_castable _ i Hlen Ef (flag_index i key Hi Hk)) in Hc. discriminate.
Qed.

Lemma parse_msg_cases line :
  length (fields line) = 22%nat -> hd "" (fields line) = "MSG" ->
  (exists d, parse_adsb_message line = Returned (Some d))
  \/ (exists e, parse_adsb_message line = Raised e).
Proof.
  intros Hlen Hmsg. rewrite parse_unfold, Hlen, Hmsg.
  cbn [Nat.eqb String.eqb Ascii.eqb Bool.eqb andb].
  destruct (lenient_loops_return (fields line)) as (m1 & m2 & E1 & E2 & _).
  rewrite E1, bind_returned, E2, bind_returned.
  destruct (for_each cast_bool BOOL_FIELDS m2) as [m3|e']; [left|right]; eauto.
Qed.

(** X4. The parser raises exactly on the 22-field [MSG] lines that have a
    flag which is neither empty nor a numeral, and what it raises is
    [ValueError] and nothing else. *)
Theorem parse_raises_exactly line :
  (forall e, parse_adsb_message line = Raised e -> e = ValueError)
  /\ ((exists e, parse_adsb_message line = Raised e) <->
      length (fields line) = 22%nat /\ hd "" (fields line) = "MSG"
      /\ forallb castable_flag (skipn 18 (fields line)) = false).
Proof.
  split; [intros e He; now apply parse_raised in He|]. split.
  - intros [e He]. now apply parse_raised in He.
  - intros (Hlen & Hmsg & Hf).
    destruct (parse_msg_cases line Hlen Hmsg) as [[d Hd]|He]; [|exact He].
    apply parse_returned_flags in Hd. congruence.
Qed.

End ParserExtras.

(** ** Calls of [process_adsb_message] *)

Section StoreExtras.

Context {pyfloat : Type} {B : PyBuiltins pyfloat}.

Local Abbreviation value := (value pyfloat).

Implicit Types (s : state pyfloat) (hex h : string) (rec parsed : gmap string value).

Lemma hex_of_some message hex :
  hex_of message = Some hex ->
  parse_adsb_message message = Returned (Some (the_record (parse_adsb_message message)))
  /\ get (the_record (parse_adsb_message message)) "hex_ident" = VStr hex
  /\ the_record (parse_adsb_message message) !! "hex_ident" = Some (VStr hex)
  /\ hex <> "".
Proof.
  unfold hex_of, field_of, get.
  destruct (parse_adsb_message message) as [[d|]|e] eqn:E; try discriminate.
  simpl. destruct (d !! "hex_ident") as [[|x| | |]|] eqn:El; try discriminate.
  intros H. injection H as ->. split; [reflexivity|]. split; [reflexivity|].
  split; [reflexivity|].
  pose proof (parsed_hex_ident message d hex E) as Hne. unfold get in Hne.
  rewrite El in Hne. specialize (Hne eq_refl).
  apply orb_false_elim in Hne as [_ Hne]. now apply String.eqb_neq.
Qed.

(** A call on a line without an aircraft leaves the tables alone and sends
    nothing. *)
Lemma process_no_hex stm message args now s :
  hex_of message = None ->
  st (process_adsb_message stm message args now s) = s
  /\ out (process_adsb_message stm message args now s) = [].
Proof.
  unfold hex_of, field_of, process_adsb_message, get.
  destruct (parse_adsb_message message) as [[d|]|e]; try (now split).
  destruct (d !! "hex_ident") as [[|x| | |]|]; simpl; now split.
Qed.

(** A call on a line about aircraft [hex]. *)
Lemma process_hex stm message args now s hex :
  hex_of message = Some hex ->
  let rec := merged s hex (the_record (parse_adsb_message message)) in
  let s' := {| aircraft_db := <[hex := rec]> (aircraft_db s);
               last_sent_time := last_sent_time s |} in
  process_adsb_message stm message args now s =
  if reportable rec then dispatch stm args hex now s'
  else {| st := s'; out := []; raised := None |}.
Proof.
  intros H. destruct (hex_of_some _ _ H) as (Hp & Hg & _ & _).
  intros rec s'. unfold process_adsb_message.
  rewrite Hp, Hg, (parsed_hex_ident _ _ _ Hp Hg). reflexivity.
Qed.

(** What the dispatch block does, case by case. *)
Lemma dispatch_cases stm args hex now s :
  let r := dispatch stm args hex now s in
  let rec := default ∅ (aircraft_db s !! hex) in
  aircraft_db (st r) = aircraft_db s
  /\ ((out r = [] /\ last_sent_time (st r) = last_sent_time s
       /\ (raised r = None
           \/ (rate_limit_open (last_sent_time s) hex now (update_interval args) = true
               /\ sinks stm args <> []
               /\ exists e, format_meshtastic_message rec = Raised e
                            /\ raised r = Some e)))
      \/ (rate_limit_open (last_sent_time s) hex now (update_interval args) = true
          /\ last_sent_time (st r) = <[hex := now]> (last_sent_time s)
          /\ raised r = debug_line args rec
          /\ ((sinks stm args = [] /\ out r = [])
              \/ exists msg, format_meshtastic_message rec = Returned msg
                             /\ out r = map (fun sink => sink msg) (sinks stm args)))).
Proof.
  unfold dispatch. cbv zeta.
  destruct (rate_limit_open _ _ _ _) eqn:Eg; [|split; [reflexivity|left; auto]].
  destruct (sinks stm args) as [|k ks] eqn:Es.
  - split; [reflexivity|]. right. auto 7.
  - destruct (format_meshtastic_message _) as [msg|e] eqn:Ef; simpl.
    + split; [reflexivity|]. right. repeat (split; [reflexivity|]).
      right. exists msg. now split.
    + split; [reflexivity|]. left. repeat (split; [reflexivity|]).
      right. split; [reflexivity|]. split; [discriminate|]. eauto.
Qed.

Lemma merged_lookup s hex parsed key :
  merged s hex parsed !! key =
  match parsed !! key with
  | Some v => if present v then Some v else default ∅ (aircraft_db s !! hex) !! key
  | None => default ∅ (aircraft_db s !! hex) !! key
  end.
Proof. apply merge_fields_lookup. Qed.

(** Each call keeps the tables in order. *)
Lemma process_tables_ok stm message args now s :
  db_ok s -> timers_ok s ->
  db_ok (st (process_adsb_message stm message args now s))
  /\ timers_ok (st (process_adsb_message stm message args now s)).
Proof.
  intros Hdb Ht. destruct (hex_of message) as [hex|] eqn:Eh.
  2:{ destruct (process_no_hex stm message args now s Eh) as [-> _]. now split. }
  destruct (hex_of_some _ _ Eh) as (_ & _ & Hl & Hne).
  pose proof (process_hex stm message args now s hex Eh) as Hp. cbv zeta in Hp.
  set (rec := merged s hex (the_record (parse_adsb_message message))) in *.
  set (s' := {| aircraft_db := <[hex := rec]> (aircraft_db s);
                last_sent_time := last_sent_time s |}) in *.
  assert (Hdb' : db_ok s').
  { intros h r. simpl. destruct (decide (hex = h)) as [<-|Hn].
    - rewrite lookup_insert_eq. intros Hr. injection Hr as <-.
      split; [|split; [exact Hne|]].
      + intros k v. unfold rec. rewrite merged_lookup.
        destruct (the_record _ !! k) as [v0|] eqn:Ek.
        * destruct (present v0) eqn:Ep; [intros Hv; now injection Hv as <-|].
          destruct (aircraft_db s !! hex) as [r0|] eqn:Er; simpl;
            [apply (Hdb _ _ Er)|now rewrite lookup_empty].
        * destruct (aircraft_db s !! hex) as [r0|] eqn:Er; simpl;
            [apply (Hdb _ _ Er)|now rewrite lookup_empty].
      + unfold rec. rewrite merged_lookup, Hl. simpl.
        destruct (String.eqb_spec hex ""); [contradiction|reflexivity].
    - rewrite lookup_insert_ne by exact Hn. apply Hdb. }
  assert (Hsome : forall h, is_Some (aircraft_db s !! h) -> is_Some (aircraft_db s' !! h)).
  { intros h Hh. simpl. destruct (decide (hex = h)) as [<-|Hn];
      [rewrite lookup_insert_eq; eauto|now rewrite lookup_insert_ne]. }
  rewrite Hp. destruct (reportable rec).
  - destruct (dispatch_cases stm args hex now s') as [Hd Hc]. cbv zeta in Hd, Hc.
    split.
    + intros h r. rewrite Hd. apply Hdb'.
    + intros h. rewrite Hd. destruct Hc as [(_ & -> & _)|(_ & -> & _)].
      * intros Hh. now apply Hsome, Ht.
      * simpl. destruct (decide (hex = h)) as [<-|Hn].
        -- intros _. rewrite lookup_insert_eq. eauto.
        -- rewrite lookup_insert_ne by exact Hn. intros Hh.
           apply (Hsome h), Ht, Hh.
  - split; [exact Hdb'|]. intros h Hh. now apply Hsome, Ht.
Qed.

Lemma process_db_hex stm message args now s hex :
  hex_of message = Some hex ->
  aircraft_db (st (process_adsb_message stm message args now s))
  = <[hex := merged s hex (the_record (parse_adsb_message message))]> (aircraft_db s).
Proof.
  intros H. rewrite (process_hex stm message args now s hex H). cbv zeta.
  destruct (reportable _); [|reflexivity].
  now destruct (dispatch_cases stm args hex now
    {| aircraft_db := <[hex := merged s hex (the_record (parse_adsb_message message))]>
                        (aircraft_db s);
       last_sent_time := last_sent_time s |}) as [-> _].
Qed.

(** The dispatch times after a call. *)
Lemma process_timers stm message args now s :
  last_sent_time (st (process_adsb_message stm message args now s)) = last_sent_time s
  \/ exists hex, hex_of message = Some hex
       /\ rate_limit_open (last_sent_time s) hex now (update_interval args) = true
       /\ last_sent_time (st (process_adsb_message stm message args now s))
          = <[hex := now]> (last_sent_time s).
Proof.
  destruct (hex_of message) as [hex|] eqn:Eh.
  2:{ left. now destruct (process_no_hex stm message args now s Eh) as [-> _]. }
  rewrite (process_hex stm message args now s hex Eh). cbv zeta.
  destruct (reportable _); [|now left].
  lazymatch goal with |- context [dispatch stm args hex now ?s'] =>
    destruct (dispatch_cases stm args hex now s') as [_ Hc] end.
  cbv zeta in Hc. destruct Hc as [(_ & -> & _)|(Hg & -> & _)]; [now left|].
  right. exists hex. now split.
Qed.

(** X7. A call removes nothing: an aircraft that has a record keeps one,
    and a field that record holds it still holds afterwards. *)
Theorem process_loses_nothing stm message args now s h rec k :
  aircraft_db s !! h = Some rec -> is_Some (rec !! k) ->
  exists rec', aircraft_db (st (process_adsb_message stm message args now s)) !! h
               = Some rec'
               /\ is_Some (rec' !! k).
Proof.
  intros Hr Hk. destruct (hex_of message) as [hex|] eqn:Eh.
  2:{ destruct (process_no_hex stm message args now s Eh) as [-> _]. eauto. }
  rewrite (process_db_hex stm message args now s hex Eh).
  destruct (decide (hex = h)) as [->|Hn].
  - rewrite lookup_insert_eq. eexists. split; [reflexivity|].
    rewrite merged_lookup, Hr. simpl.
    destruct (the_record _ !! k) as [v|]; [|exact Hk].
    destruct (present v); [eauto|exact Hk].
  - rewrite lookup_insert_ne by exact Hn. eauto.
Qed.

(** X8. A call touches the record and the dispatch time of the aircraft
    its line is about and of no other. *)
Theorem process_touches_one_aircraft stm message args now s h :
  hex_of message <> Some h ->
  aircraft_db (st (process_adsb_message stm message args now s)) !! h
  = aircraft_db s !! h
  /\ last_sent_time (st (process_adsb_message stm message args now s)) !! h
     = last_sent_time s !! h.
Proof.
  intros Hh. split.
  - destruct (hex_of message) as [hex|] eqn:Eh.
    + rewrite (process_db_hex stm message args now s hex Eh).
      apply lookup_insert_ne. congruence.
    + now destruct (process_no_hex stm message args now s Eh) as [-> _].
  - destruct (process_timers stm message args now s) as [->|(hex & Eh & _ & ->)];
      [reflexivity|].
    apply lookup_insert_ne. congruence.
Qed.

(** X9. A call leaves every dispatch time as it was, except that it may
    set the time of the aircraft its line is about to the current time;
    it does so only when that aircraft had no dispatch time, or one whose
    float difference from the current time is greater than the update
    interval. *)
Theorem process_sets_timer_to_now stm message args now s h :
  last_sent_time (st (process_adsb_message stm message args now s)) !! h
  = last_sent_time s !! h
  \/ (hex_of message = Some h
      /\ last_sent_time (st (process_adsb_message stm message args now s)) !! h
         = Some now
      /\ (last_sent_time s !! h = None
          \/ exists t, last_sent_time s !! h = Some t
                       /\ float_gt_int (float_sub now t) (update_interval args)
                          = true)).
Proof.
  destruct (process_timers stm message args now s) as [->|(hex & Eh & Hg & ->)];
    [now left|].
  destruct (decide (hex = h)) as [->|Hn].
  - right. split; [exact Eh|]. split; [apply lookup_insert_eq|].
    now apply rate_limit_open_iff.
  - left. now apply lookup_insert_ne.
Qed.

(** X10. Whatever a call sends is the rendering of the record it has just
    stored for the aircraft of its line, a record with a latitude and a
    call sign; it goes once to each sink, so to two at most, and the
    dispatch time of the aircraft is then the current time. *)
Theorem process_sends_stored_record stm message args now s :
  let r := process_adsb_message stm message args now s in
  (length (out r) <= 2)%nat
  /\ (out r = []
      \/ exists hex rec msg,
           hex_of message = Some hex
           /\ aircraft_db (st r) !! hex = Some rec
           /\ reportable rec = true
           /\ format_meshtastic_message rec = Returned msg
           /\ out r = map (fun sink => sink msg) (sinks stm args)
           /\ last_sent_time (st r) !! hex = Some now).
Proof.
  cbv zeta. destruct (hex_of message) as [hex|] eqn:Eh.
  2:{ destruct (process_no_hex stm message args now s Eh) as [_ ->].
      split; [simpl; lia|now left]. }
  rewrite (process_hex stm message args now s hex Eh). cbv zeta.
  set (rec := merged s hex (the_record (parse_adsb_message message))).
  destruct (reportable rec) eqn:Er; [|split; [simpl; lia|now left]].
  lazymatch goal with |- context [dispatch stm args hex now ?s'] =>
    destruct (dispatch_cases stm args hex now s') as [Hd Hc] end.
  cbv zeta in Hd, Hc. simpl in Hc. rewrite lookup_insert_eq in Hc. simpl in Hc.
  destruct Hc as [(Ho & _)|(_ & Hl & _ & [(_ & Ho)|(msg & Hf & Ho)])].
  - rewrite Ho. split; [simpl; lia|now left].
  - rewrite Ho. split; [simpl; lia|now left].
  - split.
    + rewrite Ho, length_map. unfold sinks.
      destruct (meshtastic_interface args), (mudp args), stm; simpl; lia.
    + right. exists hex, rec, msg. split; [reflexivity|].
      split; [rewrite Hd; apply lookup_insert_eq|].
      split; [exact Er|]. split; [exact Hf|]. split; [exact Ho|].
      rewrite Hl. apply lookup_insert_eq.
Qed.

(** X11. A position left as text stops the dispatch: when the stored
    record passes the test for a dispatch, has a call sign, and has text
    for its latitude, or a float for its latitude and text for its
    longitude, and the rate limiter lets it through to some sink, the
    formatter raises [TypeError] out of the call; nothing is sent and the
    dispatch time is not set, while the merged record stays stored. *)
Theorem text_position_stops_dispatch stm message args now s hex c :
  hex_of message = Some hex ->
  let rec := merged s hex (the_record (parse_adsb_message message)) in
  let r := process_adsb_message stm message args now s in
  reportable rec = true ->
  get rec "callsign" = VStr c ->
  (exists x, get rec "lat" = VStr x)
  \/ ((exists f, get rec "lat" = VFloat f) /\ exists x, get rec "lon" = VStr x) ->
  rate_limit_open (last_sent_time s) hex now (update_interval args) = true ->
  sinks stm args <> [] ->
  raised r = Some TypeError /\ out r = []
  /\ last_sent_time (st r) = last_sent_time s
  /\ aircraft_db (st r) !! hex = Some rec.
Proof.
  intros Eh rec r Hr Hc Hpos Hg Hs. subst r.
  rewrite (process_hex stm message args now s hex Eh). cbv zeta. fold rec.
  rewrite Hr. unfold dispatch. simpl. rewrite Hg, lookup_insert_eq. simpl.
  assert (Hf : format_meshtastic_message rec = Raised TypeError).
  { unfold format_meshtastic_message. unfold get in Hc, Hpos.
    destruct (rec !! "callsign") as [vc|]; simpl in Hc; [|discriminate]. subst vc.
    simpl. destruct Hpos as [[x Hx]|[[f Hf] [x Hx]]].
    - destruct (rec !! "lat") as [vl|]; simpl in Hx; [|discriminate]. now subst vl.
    - destruct (rec !! "lat") as [vl|]; simpl in Hf; [|discriminate]. subst vl.
      destruct (rec !! "lon") as [vo|]; simpl in Hx; [|discriminate]. now subst vo. }
  rewrite Hf. destruct (sinks stm args); [contradiction|]. simpl.
  repeat (split; [reflexivity|]). apply lookup_insert_eq.
Qed.

(** X12. Two calls for one aircraft compose field by field: after both,
    a field holds the value of the second line where that is present,
    else the value of the first line where that is present, else what
    was stored before. *)
Theorem later_message_wins stm l1 l2 args t1 t2 s hex k :
  hex_of l1 = Some hex -> hex_of l2 = Some hex ->
  let p1 := the_record (parse_adsb_message l1) in
  let p2 := the_record (parse_adsb_message l2) in
  let s1 := st (process_adsb_message stm l1 args t1 s) in
  let s2 := st (process_adsb_message stm l2 args t2 s1) in
  exists rec, aircraft_db s2 !! hex = Some rec
    /\ rec !! k =
       match p2 !! k with
       | Some v2 =>
           if present v2 then Some v2
           else match p1 !! k with
                | Some v1 => if present v1 then Some v1
                             else default ∅ (aircraft_db s !! hex) !! k
                | None => default ∅ (aircraft_db s !! hex) !! k
                end
       | None =>
           match p1 !! k with
           | Some v1 => if present v1 then Some v1
                        else default ∅ (aircraft_db s !! hex) !! k
           | None => default ∅ (aircraft_db s !! hex) !! k
           end
       end.
Proof.
  intros H1 H2 p1 p2 s1 s2. subst s2.
  rewrite (process_db_hex stm l2 args t2 s1 hex H2), lookup_insert_eq.
  eexists. split; [reflexivity|]. rewrite merged_lookup. fold p2.
  subst s1. rewrite (process_db_hex stm l1 args t1 s hex H1), lookup_insert_eq.
  simpl. rewrite merged_lookup. fold p1.
  destruct (p2 !! k) as [v2|]; [destruct (present v2)|]; reflexivity.
Qed.

(** X13. The same line twice, for an aircraft that had no dispatch time
    and whose merged record is reportable and renders: the first call
    dispatches; the second call dispatches again, and sets the dispatch
    time to its own reading, if the float difference of the two clock
    readings is greater than the update interval, and otherwise sends
    nothing and leaves the dispatch time at the first reading. *)
Theorem repeated_report_waits stm message args t1 t2 s hex msg :
  hex_of message = Some hex ->
  let rec := merged s hex (the_record (parse_adsb_message message)) in
  let r1 := process_adsb_message stm message args t1 s in
  let r2 := process_adsb_message stm message args t2 (st r1) in
  let sent := map (fun sink => sink msg) (sinks stm args) in
  reportable rec = true ->
  format_meshtastic_message rec = Returned msg ->
  last_sent_time s !! hex = None ->
  out r1 = sent /\ raised r1 = None
  /\ (float_gt_int (float_sub t2 t1) (update_interval args) = true ->
      out r2 = sent /\ last_sent_time (st r2) !! hex = Some t2)
  /\ (float_gt_int (float_sub t2 t1) (update_interval args) = false ->
      out r2 = [] /\ last_sent_time (st r2) !! hex = Some t1).
Proof.
  intros Eh rec r1 r2 sent Hr Hf Hl.
  assert (H1 : r1 = {| st := {| aircraft_db := <[hex := rec]> (aircraft_db s);
                                last_sent_time := <[hex := t1]> (last_sent_time s) |};
                       out := sent; raised := None |}).
  { subst r1. rewrite (process_hex stm message args t1 s hex Eh). cbv zeta. fold rec.
    rewrite Hr. unfold dispatch, rate_limit_open. simpl.
    rewrite Hl, lookup_insert_eq. simpl.
    rewrite Hf, (debug_line_quiet _ _ _ Hr Hf). subst sent.
    now destruct (sinks stm args). }
  assert (H2 : r2 = dispatch stm args hex t2
                      {| aircraft_db := <[hex := rec]> (aircraft_db s);
                         last_sent_time := <[hex := t1]> (last_sent_time s) |}).
  { subst r2. rewrite H1. simpl.
    rewrite (process_hex stm message args t2 _ hex Eh). cbv zeta.
    unfold merged at 1 2. simpl. rewrite lookup_insert_eq. simpl.
    unfold rec, merged. rewrite merge_fields_idempotent. fold (merged s hex
      (the_record (parse_adsb_message message))). fold rec.
    rewrite Hr. now rewrite insert_insert_eq. }
  split; [now rewrite H1|]. split; [now rewrite H1|].
  rewrite H2. unfold dispatch, rate_limit_open. simpl.
  rewrite !lookup_insert_eq. simpl. split; intros Ht.
  - rewrite Ht. simpl. rewrite Hf. subst sent.
    destruct (sinks stm args); simpl; (split; [reflexivity|apply lookup_insert_eq]).
  - rewrite Ht. split; [reflexivity|apply lookup_insert_eq].
Qed.

End StoreExtras.

(** ** The main loop *)

Section LoopExtras.

Context {pyfloat : Type} {B : PyBuiltins pyfloat}.

Local Abbreviation value := (value pyfloat).

Implicit Types (s : state pyfloat) (feed : list (string * pyfloat)).

Lemma main_loop_app stm args feed feed' s :
  main_loop stm args (feed ++ feed') s =
  match raised (main_loop stm args feed s) with
  | Some _ => main_loop stm args feed s
  | None =>
      {| st := st (main_loop stm args feed' (st (main_loop stm args feed s)));
         out := out (main_loop stm args feed s)
                ++ out (main_loop stm args feed' (st (main_loop stm args feed s)));
         raised := raised (main_loop stm args feed' (st (main_loop stm args feed s))) |}
  end.
Proof.
  revert s. induction feed as [|[message t] feed IH]; intros s; simpl.
  - now destruct (main_loop stm args feed' s).
  - destruct (raised (process_adsb_message stm message args t s)) eqn:E;
      [now rewrite E|].
    rewrite IH. destruct (raised (main_loop stm args feed _)) eqn:E'; simpl.
    + now rewrite E'.
    + now rewrite app_assoc.
Qed.

Lemma process_parse_raised stm message args now s e :
  parse_adsb_message message = Raised e ->
  process_adsb_message stm message args now s = {| st := s; out := []; raised := Some e |}.
Proof. intros H. unfold process_adsb_message. now rewrite H. Qed.

Lemma process_ignored stm message args now s :
  ignored message = true ->
  process_adsb_message stm message args now s = {| st := s; out := []; raised := None |}.
Proof.
  unfold ignored, process_adsb_message.
  destruct (parse_adsb_message message) as [[d|]|e]; try discriminate; [|reflexivity].
  destruct (get d "hex_ident") as [|x| | |]; simpl; try reflexivity.
  intros H. apply negb_true_iff, negb_false_iff in H. rewrite H.
  now rewrite orb_true_r.
Qed.

(** X6. The tables stay in order through any run: started from tables in
    which every stored record is without [None] and empty strings, sits
    under a key that is not empty and holds that key as its [hex_ident],
    and every aircraft with a dispatch time has a record (the empty tables
    [main] starts from are such), the loop ends with such tables, whatever
    the lines. *)
Theorem tables_stay_ok stm args feed s :
  db_ok s -> timers_ok s ->
  db_ok (st (main_loop stm args feed s)) /\ timers_ok (st (main_loop stm args feed s)).
Proof.
  revert s. induction feed as [|[message t] feed IH]; intros s Hd Ht; simpl.
  - now split.
  - destruct (process_tables_ok stm message args t s Hd Ht) as [Hd' Ht'].
    destruct (raised (process_adsb_message stm message args t s)); [now split|].
    simpl. now apply IH.
Qed.

(** X14. One line with a flag that is neither empty nor a numeral ends
    the run: the loop is left by [ValueError] with the tables and the
    output as the lines before it made them, and no line after it is
    processed. *)
Theorem bad_flag_ends_run stm args feed message t feed' s :
  raised (main_loop stm args feed s) = None ->
  length (fields message) = 22%nat -> hd "" (fields message) = "MSG" ->
  forallb castable_flag (skipn 18 (fields message)) = false ->
  main_loop stm args (feed ++ (message, t) :: feed') s
  = {| st := st (main_loop stm args feed s);
       out := out (main_loop stm args feed s);
       raised := Some ValueError |}.
Proof.
  intros Hr Hlen Hmsg Hf. rewrite main_loop_app, Hr. simpl.
  destruct (parse_msg_cases message Hlen Hmsg) as [[d Hd]|[e He]].
  - apply parse_returned_flags in Hd. congruence.
  - pose proof (parse_raised message e He) as [-> _].
    rewrite (process_parse_raised stm message args t _ _ He). simpl.
    now rewrite app_nil_r.
Qed.

(** X15. Lines the parser returns no record for, and lines without an
    aircraft identifier, are passed over: taking them out of the feed
    changes neither the tables nor the output nor the exception of a
    run. *)
Theorem ignored_lines_do_nothing stm args feed s :
  main_loop stm args (List.filter (fun x => negb (ignored (fst x))) feed) s
  = main_loop stm args feed s.
Proof.
  revert s. induction feed as [|[message t] feed IH]; intros s; simpl; [reflexivity|].
  destruct (ignored message) eqn:E; simpl.
  - rewrite (process_ignored stm message args t s E). simpl. rewrite IH.
    now destruct (main_loop stm args feed s).
  - destruct (raised (process_adsb_message stm message args t s)); [reflexivity|].
    now rewrite IH.
Qed.

(** X21. With the options as [main] sets them up every dispatch reaches a
    sink: the device when it is attached, the MUDP network when it is
    switched on and its library is there, and the console exactly when
    neither of the two holds. *)
Theorem main_always_has_a_sink (no_meshtastic device_connects mudp_flag mudp_lib : bool)
    (interval : Z) (debug_flag : bool) (msg : string) :
  let args := main_args no_meshtastic device_connects mudp_flag mudp_lib
                interval debug_flag in
  let sent := map (fun sink => sink msg) (sinks mudp_lib args) in
  sent <> []
  /\ (In (SendText msg) sent <-> no_meshtastic = false /\ device_connects = true)
  /\ (In (MudpSend msg) sent <-> mudp_flag = true /\ mudp_lib = true)
  /\ (In (Simulated msg) sent <->
      (no_meshtastic = true \/ device_connects = false)
      /\ (mudp_flag = false \/ mudp_lib = false)).
Proof.
  destruct no_meshtastic, device_connects, mudp_flag, mudp_lib; cbv;
    intuition (discriminate || auto).
Qed.

End LoopExtras.

(** ** Framing and the reader's events *)

Lemma take_lines_cons (c : ascii) (buffer : string) :
  take_lines (String c buffer) =
  let '(lines, tail) := take_lines buffer in
  if Ascii.eqb c "010" then (EmptyString :: lines, tail)
  else match lines with
       | [] => ([], String c tail)
       | l :: ls => (String c l :: ls, tail)
       end.
Proof. reflexivity. Qed.

(** X16. Framing loses nothing and cuts at line feeds only: the lines
    taken from a buffer, each closed by a line feed again, followed by
    what is left, give the buffer back; no line has a line feed in it,
    and neither has what is left. *)
Theorem take_lines_round_trip (buffer : string) :
  buffer = Str2.join_lines (fst (take_lines buffer)) +:+ snd (take_lines buffer)
  /\ forallb Str2.no_newline (fst (take_lines buffer)) = true
  /\ Str2.no_newline (snd (take_lines buffer)) = true.
Proof.
  induction buffer as [|c buffer (IH1 & IH2 & IH3)]; [now split|].
  rewrite take_lines_cons. destruct (take_lines buffer) as [lines tail].
  simpl in IH1, IH2, IH3.
  destruct (Ascii.eqb_spec c "010"%char) as [->|Hc].
  - split; [exact (f_equal (String "010") IH1)|]. now split.
  - assert (Hn : Ascii.eqb c "010" = false)
      by (now destruct (Ascii.eqb_spec c "010"%char)).
    destruct lines as [|l ls].
    + split; [exact (f_equal (String c) IH1)|]. split; [reflexivity|].
      simpl. now rewrite Hn.
    + split; [exact (f_equal (String c) IH1)|]. split; [|exact IH3].
      simpl in *. now rewrite Hn.
Qed.

Lemma take_lines_app (a b : string) :
  take_lines (a +:+ b) =
  (fst (take_lines a) ++ fst (take_lines (snd (take_lines a) +:+ b)),
   snd (take_lines (snd (take_lines a) +:+ b))).
Proof.
  induction a as [|c a IH].
  - simpl. change (EmptyString +:+ b) with b. now destruct (take_lines b).
  - change (String c a +:+ b) with (String c (a +:+ b)).
    rewrite !take_lines_cons, IH. destruct (take_lines a) as [la ra]. simpl.
    destruct (Ascii.eqb c "010") eqn:Hc; simpl; [reflexivity|].
    destruct la as [|x ls]; simpl; [|reflexivity].
    rewrite Hc. destruct (take_lines (ra +:+ b)) as [lb rb]. simpl.
    now destruct lb.
Qed.

Lemma yielded_app (evs evs' : list event) :
  yielded (evs ++ evs') = yielded evs ++ yielded evs'.
Proof.
  induction evs as [|e evs IH]; simpl; [reflexivity|].
  destruct e; simpl; now rewrite IH.
Qed.

Lemma yielded_yields (lines : list string) : yielded (map Yield lines) = lines.
Proof. induction lines as [|l ls IH]; simpl; [reflexivity|now rewrite IH]. Qed.

Lemma append_assoc (a b c : string) : (a +:+ b) +:+ c = a +:+ (b +:+ c).
Proof. induction a as [|x a IH]; [reflexivity|exact (f_equal (String x) IH)]. Qed.

Lemma append_empty_r (a : string) : a +:+ "" = a.
Proof. induction a as [|x a IH]; [reflexivity|exact (f_equal (String x) IH)]. Qed.

Lemma take_lines_no_newline (buffer : string) :
  Str2.no_newline buffer = true -> take_lines buffer = ([], buffer).
Proof.
  induction buffer as [|c buffer IH]; [reflexivity|]. simpl.
  intros H. apply andb_prop in H as [Hc Hb]. rewrite (IH Hb).
  apply negb_true_iff in Hc. now rewrite Hc.
Qed.

Lemma take_lines_rest_no_newline (buffer : string) :
  Str2.no_newline (snd (take_lines buffer)) = true.
Proof.
  induction buffer as [|c buffer IH]; [reflexivity|].
  rewrite take_lines_cons. destruct (take_lines buffer) as [lines tail]. simpl in IH.
  destruct (Ascii.eqb c "010") eqn:Hc; [exact IH|].
  destruct lines; simpl; [|exact IH]. now rewrite Hc.
Qed.

(** The lines of a connected phase are those of its buffer and data taken
    as one string. *)
Lemma recv_loop_lines (buffer : string) (chunks : list string) (last : recv_end) :
  Str2.no_newline buffer = true ->
  yielded (fst (recv_loop buffer chunks last))
  = fst (take_lines (buffer +:+ received chunks)).
Proof.
  revert buffer. induction chunks as [|data chunks IH]; intros buffer Hb; simpl.
  - now rewrite append_empty_r, (take_lines_no_newline _ Hb).
  - destruct (String.eqb data "").
    + simpl. now rewrite append_empty_r, (take_lines_no_newline _ Hb).
    + rewrite <- append_assoc, (take_lines_app (buffer +:+ data)).
      pose proof (take_lines_rest_no_newline (buffer +:+ data)) as Hrest.
      destruct (take_lines (buffer +:+ data)) as [lines buffer']. simpl in *.
      specialize (IH buffer' Hrest).
      destruct (recv_loop buffer' chunks last) as [evs failed]. simpl in *.
      now rewrite yielded_app, yielded_yields, IH.
Qed.

(** X17. A line may span reads. What a connected phase yields is the
    complete lines of its decoded chunks taken as one string, so a line
    whose text arrives in several chunks comes out whole, and two
    sequences of decoded chunks that make up the same text yield the same
    lines. (The text is that of the chunks as decoded one by one; it is
    not the decoding of the bytes taken as one.) *)
Theorem lines_span_reads (chunks chunks' : list string) (last last' : recv_end) :
  yielded (fst (recv_loop "" chunks last)) = fst (take_lines (received chunks))
  /\ (received chunks = received chunks' ->
      yielded (fst (recv_loop "" chunks last))
      = yielded (fst (recv_loop "" chunks' last'))).
Proof.
  split.
  - now rewrite recv_loop_lines.
  - intros H. rewrite !recv_loop_lines by reflexivity. simpl. now rewrite H.
Qed.

Lemma attempt_lines (x : session) (b : bool) :
  yielded (fst (fst (attempt x b))) = session_lines x.
Proof.
  destruct x as [| |chunks last]; simpl; try reflexivity.
  pose proof (recv_loop_lines "" chunks last eq_refl) as H.
  destruct (recv_loop "" chunks last) as [evs failed]. simpl in *. exact H.
Qed.

(** X18. While fewer than ten passes have ended in [socket.error], the
    lines the reader has yielded are the complete lines of each session,
    session after session; what a session leaves unfinished in the buffer
    is dropped and never joined to the data of the next. *)
Theorem reader_yields_session_lines (script : list session) :
  errors script < CONNECT_ATTEMPT_LIMIT ->
  yielded (fst (connect_to_dump1090 script)) = concat (map session_lines script).
Proof.
  assert (H : forall script n b, n + errors script < CONNECT_ATTEMPT_LIMIT ->
            yielded (fst (connect_loop script n b)) = concat (map session_lines script)).
  { clear script. induction script as [|x script IH]; intros n b H.
    - simpl in *. now destruct (n <? CONNECT_ATTEMPT_LIMIT).
    - simpl in H. pose proof (errors_nonneg script) as Hpos.
      assert (Hlt : n < CONNECT_ATTEMPT_LIMIT) by (destruct (fails x); lia).
      rewrite (connect_loop_cons _ _ _ _ Hlt).
      pose proof (attempt_failed x b) as Hf. pose proof (attempt_lines x b) as Hl.
      destruct (attempt x b) as [[evs failed] b1]. simpl in Hf, Hl. subst failed.
      cbv beta iota zeta.
      specialize (IH (if fails x then n + 1 else n) b1).
      destruct (connect_loop script _ b1) as [later status]. simpl in *.
      rewrite !yielded_app, Hl, IH by (destruct (fails x); lia).
      destruct (fails x && _), b1; reflexivity. }
  intros Hlt. unfold connect_to_dump1090. apply H. exact Hlt.
Qed.

Lemma slept_app (evs evs' : list event) : slept (evs ++ evs') = slept evs + slept evs'.
Proof.
  induction evs as [|e evs IH]; simpl; [reflexivity|].
  destruct e; simpl; rewrite IH; lia.
Qed.

Lemma recv_loop_no_sleep (buffer : string) (chunks : list string) (last : recv_end) :
  slept (fst (recv_loop buffer chunks last)) = 0.
Proof.
  revert buffer. induction chunks as [|data chunks IH]; intros buffer; simpl.
  - reflexivity.
  - destruct (String.eqb data ""); [reflexivity|].
    destruct (take_lines (buffer +:+ data)) as [lines buffer'].
    specialize (IH buffer'). destruct (recv_loop buffer' chunks last) as [evs failed].
    simpl in *. rewrite slept_app, IH. clear. induction lines; simpl; lia.
Qed.

Lemma attempt_no_sleep (x : session) (b : bool) : slept (fst (fst (attempt x b))) = 0.
Proof.
  destruct x as [| |chunks last]; simpl; try reflexivity.
  pose proof (recv_loop_no_sleep "" chunks last) as H.
  now destruct (recv_loop "" chunks last).
Qed.

Lemma connect_loop_slept (script : list session) :
  forall n b, 0 <= n ->
  0 <= slept (fst (connect_loop script n b))
       <= CONNECT_ATTEMPT_DELAY * Z.max 0 (CONNECT_ATTEMPT_LIMIT - 1 - n)
  /\ (n + errors script < CONNECT_ATTEMPT_LIMIT ->
      slept (fst (connect_loop script n b)) = CONNECT_ATTEMPT_DELAY * errors script).
Proof.
  unfold CONNECT_ATTEMPT_DELAY.
  induction script as [|x script IH]; intros n b Hn.
  - simpl. destruct (n <? CONNECT_ATTEMPT_LIMIT); simpl; split; lia.
  - destruct (Z.ltb_spec n CONNECT_ATTEMPT_LIMIT) as [Hlt|Hge].
    2:{ rewrite connect_loop_exhausted by exact Hge. simpl.
        pose proof (errors_nonneg script).
        split; [lia|]. destruct (fails x); lia. }
    rewrite (connect_loop_cons _ _ _ _ Hlt).
    pose proof (attempt_failed x b) as Hf. pose proof (attempt_no_sleep x b) as Hs.
    destruct (attempt x b) as [[evs failed] b1]. simpl in Hf, Hs. subst failed.
    cbv beta iota zeta.
    destruct (IH (if fails x then n + 1 else n) b1) as [IH1 IH2];
      [destruct (fails x); lia|].
    destruct (connect_loop script _ b1) as [later status]. simpl in *.
    rewrite !slept_app, Hs.
    assert (Hc : slept (if b1 then [Close] else []) = 0) by (now destruct b1).
    rewrite Hc. unfold CONNECT_ATTEMPT_LIMIT, CONNECT_ATTEMPT_DELAY in *.
    destruct (fails x); simpl.
    + destruct (Z.ltb_spec (n + 1) 10); simpl;
        (split; [lia|intros He; rewrite IH2 by lia; lia]).
    + split; [lia|]. intros He. rewrite IH2 by lia. lia.
Qed.

(** X19. The reader sleeps five seconds for each pass that ends in
    [socket.error] while fewer than ten have, and never after the tenth:
    in any run it sleeps 45 seconds at most. *)
Theorem reader_sleeps_at_most_45 (script : list session) :
  0 <= slept (fst (connect_to_dump1090 script)) <= 45
  /\ (errors script < CONNECT_ATTEMPT_LIMIT ->
      slept (fst (connect_to_dump1090 script)) = 5 * errors script).
Proof.
  unfold connect_to_dump1090.
  destruct (connect_loop_slept script 0 false) as [H1 H2]; [lia|].
  split; [exact H1|exact H2].
Qed.

Lemma sockets_ok_yields (lines : list string) (later : list event) (opened : bool) :
  sockets_ok opened (map Yield lines ++ later) = sockets_ok opened later.
Proof. induction lines as [|l ls IH]; simpl; [reflexivity|exact IH]. Qed.

Lemma sockets_ok_recv (buffer : string) (chunks : list string) (last : recv_end)
    (later : list event) (opened : bool) :
  sockets_ok opened (fst (recv_loop buffer chunks last) ++ later)
  = sockets_ok opened later.
Proof.
  revert buffer. induction chunks as [|data chunks IH]; intros buffer; simpl.
  - reflexivity.
  - destruct (String.eqb data ""); [reflexivity|].
    destruct (take_lines (buffer +:+ data)) as [lines buffer'].
    specialize (IH buffer'). destruct (recv_loop buffer' chunks last) as [evs failed].
    simpl in *. now rewrite <- app_assoc, sockets_ok_yields.
Qed.

(** X20. The reader handles its sockets in order: it never connects while
    a connection is open, every connection it makes is closed before the
    next pass, also when the pass ends in [socket.error] and after the
    sleep, and when it waits or has given up none is open. *)
Theorem reader_closes_every_socket (script : list session) :
  sockets_ok false (fst (connect_to_dump1090 script)) = true.
Proof.
  unfold connect_to_dump1090. generalize false at 2 as b. generalize 0 as n.
  induction script as [|x script IH]; intros n b.
  - simpl. now destruct (n <? CONNECT_ATTEMPT_LIMIT).
  - destruct (Z.ltb_spec n CONNECT_ATTEMPT_LIMIT) as [Hlt|Hge];
      [|now rewrite connect_loop_exhausted].
    rewrite (connect_loop_cons _ _ _ _ Hlt).
    destruct x as [| |chunks last]; simpl attempt; cbv beta iota zeta.
    + specialize (IH (n + 1) b). destruct (connect_loop script (n + 1) b) as [later st].
      simpl in *. destruct (n + 1 <? CONNECT_ATTEMPT_LIMIT), b; simpl; exact IH.
    + specialize (IH (n + 1) true).
      destruct (connect_loop script (n + 1) true) as [later st].
      simpl in *. destruct (n + 1 <? CONNECT_ATTEMPT_LIMIT); simpl; exact IH.
    + pose proof (sockets_ok_recv "" chunks last) as Hr.
      destruct (recv_loop "" chunks last) as [evs failed]. simpl in Hr.
      specialize (IH (if failed then n + 1 else n) true).
      destruct (connect_loop script _ true) as [later st]. simpl in *.
      rewrite Hr. destruct (failed && _); simpl; exact IH.
Qed.

(** ** The further properties at sample inputs *)

(** X1 at the position report. *)
Lemma parse_numeric_fields_witness :
  length (fields Sample.report) = 22%nat
  /\ hd "" (fields Sample.report) = "MSG"
  /\ forallb (castable_flag (B := Float64.builtins)) (skipn 18 (fields Sample.report)) = true
  /\ field_of (parse_adsb_message (B := Float64.builtins) Sample.report) "altitude"
     = Some (VInt 38000).
Proof.
  assert (H1 : length (fields Sample.report) = 22%nat) by (vm_compute; reflexivity).
  assert (H2 : hd "" (fields Sample.report) = "MSG") by (vm_compute; reflexivity).
  assert (H3 : forallb (castable_flag (B := Float64.builtins))
                 (skipn 18 (fields Sample.report)) = true) by (vm_compute; reflexivity).
  repeat (split; [assumption|]).
  destruct (parse_numeric_fields (B := Float64.builtins) Sample.report H1 H2 H3)
    as (d & Hd & Hint & _).
  rewrite Hd. simpl. rewrite (Hint 11%nat "altitude" eq_refl).
  - vm_compute. reflexivity.
  - unfold INT_FIELDS. repeat (first [apply list_elem_of_here|apply list_elem_of_further]).
Defined.

(** X2 at the position report. *)
Lemma parse_flag_fields_witness :
  length (fields Sample.report) = 22%nat
  /\ hd "" (fields Sample.report) = "MSG"
  /\ forallb (castable_flag (B := Float64.builtins)) (skipn 18 (fields Sample.report)) = true
  /\ exists d, parse_adsb_message (B := Float64.builtins) Sample.report = Returned (Some d)
       /\ forall (i : nat) key, SBS1_FIELDS !! i = Some key -> key ∈ BOOL_FIELDS ->
          (nth i (fields Sample.report) "" = "" /\ d !! key = Some VNone)
          \/ (exists z, nth i (fields Sample.report) "" <> ""
                        /\ int_of_str (nth i (fields Sample.report) "") = Some z
                        /\ d !! key = Some (VBool (negb (z =? 0)))).
Proof.
  assert (H1 : length (fields Sample.report) = 22%nat) by (vm_compute; reflexivity).
  assert (H2 : hd "" (fields Sample.report) = "MSG") by (vm_compute; reflexivity).
  assert (H3 : forallb (castable_flag (B := Float64.builtins))
                 (skipn 18 (fields Sample.report)) = true) by (vm_compute; reflexivity).
  repeat (split; [assumption|]).
  exact (parse_flag_fields (B := Float64.builtins) Sample.report H1 H2 H3).
Defined.

(** X3 at the position report. *)
Lemma parse_text_fields_witness :
  let d := the_record (parse_adsb_message (B := Float64.builtins) Sample.report) in
  parse_adsb_message Sample.report = Returned (Some d)
  /\ (forall k, is_Some (d !! k) <-> k ∈ SBS1_FIELDS)
  /\ (forall k, d !! k <> Some (VStr "")).
Proof.
  intros d.
  assert (H : parse_adsb_message Sample.report = Returned (Some d)).
  { apply record_returned. vm_compute. reflexivity. }
  split; [exact H|].
  destruct (parse_text_fields (B := Float64.builtins) Sample.report d H) as (Hk & He & _).
  now split.
Defined.

(** X4 at the line with a flag that is not a number. *)
Lemma parse_raises_exactly_witness :
  length (fields Cases.bad_flag) = 22%nat /\ hd "" (fields Cases.bad_flag) = "MSG"
  /\ forallb (castable_flag (B := Float64.builtins)) (skipn 18 (fields Cases.bad_flag)) = false
  /\ exists e, parse_adsb_message (B := Float64.builtins) Cases.bad_flag = Raised e.
Proof.
  assert (H : length (fields Cases.bad_flag) = 22%nat /\ hd "" (fields Cases.bad_flag) = "MSG"
              /\ forallb (castable_flag (B := Float64.builtins))
                   (skipn 18 (fields Cases.bad_flag)) = false).
  { split; [vm_compute; reflexivity|]. split; vm_compute; reflexivity. }
  destruct H as (H1 & H2 & H3). repeat (split; [assumption|]).
  apply (proj2 (parse_raises_exactly (B := Float64.builtins) Cases.bad_flag)).
  now split.
Defined.

(** X5 at the report with a carriage return at its end. *)
Lemma parse_ignores_padding_witness :
  Str2.all_space "" = true /\ Str2.all_space (String "013" "") = true
  /\ parse_adsb_message (B := Float64.builtins) ("" +:+ Sample.report +:+ String "013" "")
     = parse_adsb_message Sample.report.
Proof.
  assert (H1 : Str2.all_space "" = true) by reflexivity.
  assert (H2 : Str2.all_space (String "013" "") = true) by reflexivity.
  split; [exact H1|]. split; [exact H2|].
  exact (parse_ignores_padding (B := Float64.builtins) "" Sample.report _ H1 H2).
Defined.

(** X6 at the empty tables [main] starts from. *)
Lemma tables_stay_ok_witness :
  db_ok Sample.fresh /\ timers_ok Sample.fresh
  /\ db_ok (st (main_loop true Sample.console
                  [(Sample.report, Float64.seconds 1000);
                   (Cases.other, Float64.seconds 1001)] Sample.fresh))
  /\ timers_ok (st (main_loop true Sample.console
                      [(Sample.report, Float64.seconds 1000);
                       (Cases.other, Float64.seconds 1001)] Sample.fresh)).
Proof.
  assert (H1 : db_ok Sample.fresh).
  { intros hex rec H. simpl in H. now rewrite lookup_empty in H. }
  assert (H2 : timers_ok Sample.fresh).
  { intros hex [t H]. simpl in H. now rewrite lookup_empty in H. }
  split; [exact H1|]. split; [exact H2|].
  exact (tables_stay_ok true Sample.console _ Sample.fresh H1 H2).
Defined.

(** X7 at tables that know the call sign of ABC123, and a position report
    for it. *)
Lemma process_loses_nothing_witness :
  aircraft_db Cases.known !! "ABC123" = Some {[ "callsign" := VStr "BAW123 " ]}
  /\ is_Some (({[ "callsign" := VStr "BAW123 " ]} : gmap string (value Float64.t))
              !! "callsign")
  /\ exists rec', aircraft_db (st (process_adsb_message true Cases.position_only
                                     Sample.console (Float64.seconds 1000) Cases.known))
                                         !! "ABC123"
                  = Some rec'
                  /\ is_Some (rec' !! "callsign").
Proof.
  assert (H1 : aircraft_db Cases.known !! "ABC123"
               = Some {[ "callsign" := VStr "BAW123 " ]}) by apply lookup_singleton_eq.
  assert (H2 : is_Some (({[ "callsign" := VStr "BAW123 " ]} : gmap string (value Float64.t))
                        !! "callsign")).
  { rewrite lookup_singleton_eq. eauto. }
  split; [exact H1|]. split; [exact H2|].
  exact (process_loses_nothing true Cases.position_only Sample.console
      (Float64.seconds 1000)
           Cases.known "ABC123" _ "callsign" H1 H2).
Defined.

(** X8 at a line of another aircraft. *)
Lemma process_touches_one_aircraft_witness :
  hex_of (B := Float64.builtins) Cases.other <> Some "ABC123"
  /\ aircraft_db (st (process_adsb_message true Cases.other Sample.console
      (Float64.seconds 1000)
                        Cases.known)) !! "ABC123"
     = aircraft_db Cases.known !! "ABC123"
  /\ last_sent_time (st (process_adsb_message true Cases.other Sample.console
      (Float64.seconds 1000)
                           Cases.known)) !! "ABC123"
     = last_sent_time Cases.known !! "ABC123".
Proof.
  assert (H : hex_of (B := Float64.builtins) Cases.other <> Some "ABC123").
  { vm_compute. discriminate. }
  split; [exact H|].
  exact (process_touches_one_aircraft true Cases.other Sample.console (Float64.seconds 1000)
           Cases.known "ABC123" H).
Defined.

(** X11 at a report whose latitude is the word north. *)
Lemma text_position_stops_dispatch_witness :
  let rec := merged Sample.fresh "ABC123"
               (the_record (parse_adsb_message (B := Float64.builtins) Cases.bad_lat)) in
  let r := process_adsb_message true Cases.bad_lat Sample.console (Float64.seconds 1000)
      Sample.fresh in
  hex_of Cases.bad_lat = Some "ABC123"
  /\ reportable rec = true
  /\ get rec "callsign" = VStr "BAW123 "
  /\ get rec "lat" = VStr "north"
  /\ rate_limit_open (last_sent_time Sample.fresh) "ABC123" (Float64.seconds 1000)
       (update_interval Sample.console) = true
  /\ sinks true Sample.console <> []
  /\ raised r = Some TypeError /\ out r = []
  /\ last_sent_time (st r) = last_sent_time Sample.fresh
  /\ aircraft_db (st r) !! "ABC123" = Some rec.
Proof.
  intros rec r.
  assert (H1 : hex_of (B := Float64.builtins) Cases.bad_lat = Some "ABC123")
    by (vm_compute; reflexivity).
  assert (H2 : reportable rec = true) by (vm_compute; reflexivity).
  assert (H3 : get rec "callsign" = VStr "BAW123 ") by (vm_compute; reflexivity).
  assert (H4 : get rec "lat" = VStr "north") by (vm_compute; reflexivity).
  assert (H5 : rate_limit_open (last_sent_time Sample.fresh) "ABC123" (Float64.seconds 1000)
                 (update_interval Sample.console) = true) by reflexivity.
  assert (H6 : sinks true Sample.console <> []) by discriminate.
  repeat (split; [assumption|]).
  exact (text_position_stops_dispatch true Cases.bad_lat Sample.console
      (Float64.seconds 1000)
           Sample.fresh "ABC123" _ H1 H2 H3 (or_introl (ex_intro _ _ H4)) H5 H6).
Defined.

(** X12 at a position without a call sign followed by a call sign without
    a position: the record then holds the latitude of the first line. *)
Lemma later_message_wins_witness :
  let p1 := the_record (parse_adsb_message (B := Float64.builtins) Cases.position_only) in
  let p2 := the_record (parse_adsb_message (B := Float64.builtins) Cases.callsign_only) in
  let s1 := st (process_adsb_message true Cases.position_only Sample.console
      (Float64.seconds 1000)
                  Sample.fresh) in
  let s2 := st (process_adsb_message true Cases.callsign_only Sample.console
      (Float64.seconds 1001) s1) in
  hex_of Cases.position_only = Some "ABC123"
  /\ hex_of Cases.callsign_only = Some "ABC123"
  /\ exists rec, aircraft_db s2 !! "ABC123" = Some rec
       /\ rec !! "lat" = p1 !! "lat"
       /\ rec !! "callsign" = Some (VStr "BAW123 ").
Proof.
  intros p1 p2 s1 s2.
  assert (H1 : hex_of (B := Float64.builtins) Cases.position_only = Some "ABC123")
    by (vm_compute; reflexivity).
  assert (H2 : hex_of (B := Float64.builtins) Cases.callsign_only = Some "ABC123")
    by (vm_compute; reflexivity).
  split; [exact H1|]. split; [exact H2|].
  destruct (later_message_wins true Cases.position_only Cases.callsign_only
              Sample.console (Float64.seconds 1000) (Float64.seconds 1001) Sample.fresh
                  "ABC123" "lat" H1 H2)
    as (rec & Hrec & Hlat).
  destruct (later_message_wins true Cases.position_only Cases.callsign_only
              Sample.console (Float64.seconds 1000) (Float64.seconds 1001) Sample.fresh
                  "ABC123" "callsign" H1 H2)
    as (rec' & Hrec' & Hcs).
  exists rec. split; [exact Hrec|].
  assert (rec' = rec) as -> by congruence. split.
  - rewrite Hlat. vm_compute. reflexivity.
  - rewrite Hcs. vm_compute. reflexivity.
Defined.

(** X13 at the position report, sent at 1000 and seen again at 1300 and at
    1301. *)
Lemma repeated_report_waits_witness :
  let rec := merged Sample.fresh "ABC123"
               (the_record (parse_adsb_message (B := Float64.builtins) Sample.report)) in
  let r1 := process_adsb_message true Sample.report Sample.console
      (Float64.seconds 1000) Sample.fresh in
  hex_of Sample.report = Some "ABC123"
  /\ reportable rec = true
  /\ format_meshtastic_message rec = Returned "BAW123 38000ft 51.50N/0.10W"
  /\ last_sent_time Sample.fresh !! "ABC123" = None
  /\ out r1 = [Simulated "BAW123 38000ft 51.50N/0.10W"]
  /\ out (process_adsb_message true Sample.report Sample.console (Float64.seconds 1300)
      (st r1)) = []
  /\ out (process_adsb_message true Sample.report Sample.console (Float64.seconds 1301)
      (st r1))
     = [Simulated "BAW123 38000ft 51.50N/0.10W"].
Proof.
  intros rec r1.
  assert (H1 : hex_of (B := Float64.builtins) Sample.report = Some "ABC123")
    by (vm_compute; reflexivity).
  assert (H2 : reportable rec = true) by (vm_compute; reflexivity).
  assert (H3 : format_meshtastic_message rec = Returned "BAW123 38000ft 51.50N/0.10W")
    by (vm_compute; reflexivity).
  assert (H4 : last_sent_time Sample.fresh !! "ABC123" = None) by apply lookup_empty.
  repeat (split; [assumption|]).
  destruct (repeated_report_waits true Sample.report Sample.console
      (Float64.seconds 1000) (Float64.seconds 1300)
              Sample.fresh "ABC123" _ H1 H2 H3 H4) as (Ho & _ & _ & Hwait).
  destruct (repeated_report_waits true Sample.report Sample.console
      (Float64.seconds 1000) (Float64.seconds 1301)
              Sample.fresh "ABC123" _ H1 H2 H3 H4) as (_ & _ & Hgo & _).
  split; [exact Ho|]. split.
  - apply Hwait. vm_compute. reflexivity.
  - apply Hgo. vm_compute. reflexivity.
Defined.

(** X14 at a report, then the line with the bad flag, then another report. *)
Lemma bad_flag_ends_run_witness :
  raised (main_loop true Sample.console [(Sample.report, Float64.seconds 1000)]
      Sample.fresh) = None
  /\ length (fields Cases.bad_flag) = 22%nat /\ hd "" (fields Cases.bad_flag) = "MSG"
  /\ forallb (castable_flag (B := Float64.builtins)) (skipn 18 (fields Cases.bad_flag)) = false
  /\ raised (main_loop true Sample.console
               ([(Sample.report, Float64.seconds 1000)]
                ++ (Cases.bad_flag, Float64.seconds 1001)
                   :: [(Cases.other, Float64.seconds 1002)]) Sample.fresh)
     = Some ValueError.
Proof.
  assert (H1 : raised (main_loop true Sample.console [(Sample.report, Float64.seconds 1000)]
                         Sample.fresh) = None) by (vm_compute; reflexivity).
  assert (H2 : length (fields Cases.bad_flag) = 22%nat) by (vm_compute; reflexivity).
  assert (H3 : hd "" (fields Cases.bad_flag) = "MSG") by (vm_compute; reflexivity).
  assert (H4 : forallb (castable_flag (B := Float64.builtins))
                 (skipn 18 (fields Cases.bad_flag)) = false) by (vm_compute; reflexivity).
  repeat (split; [assumption|]).
  exact (f_equal raised
           (bad_flag_ends_run true Sample.console [(Sample.report, Float64.seconds 1000)]
              Cases.bad_flag (Float64.seconds 1001)
              [(Cases.other, Float64.seconds 1002)] Sample.fresh H1 H2 H3 H4)).
Defined.

(** X17 at one line delivered whole and delivered in two pieces. *)
Lemma lines_span_reads_witness :
  received ["MSG,8,1"; ",1,ABC123" +:+ String "010" "MSG,3"]
  = received ["MSG,8,1,1,ABC123" +:+ String "010" "MSG,3"]
  /\ yielded (fst (recv_loop "" ["MSG,8,1"; ",1,ABC123" +:+ String "010" "MSG,3"] PeerClosed))
     = yielded (fst (recv_loop "" ["MSG,8,1,1,ABC123" +:+ String "010" "MSG,3"] RecvError)).
Proof.
  assert (H : received ["MSG,8,1"; ",1,ABC123" +:+ String "010" "MSG,3"]
              = received ["MSG,8,1,1,ABC123" +:+ String "010" "MSG,3"]) by reflexivity.
  split; [exact H|].
  exact (proj2 (lines_span_reads _ _ PeerClosed RecvError) H).
Defined.

(** X18 at a session that delivers a line in two pieces and the start of
    another, followed by a session that breaks after a line. *)
Lemma reader_yields_session_lines_witness :
  errors [Cases.split_line; Sample.line_then_reset] < CONNECT_ATTEMPT_LIMIT
  /\ yielded (fst (connect_to_dump1090 [Cases.split_line; Sample.line_then_reset]))
     = ["MSG,8,1,1,ABC123"; "MSG,8"].
Proof.
  assert (H : errors [Cases.split_line; Sample.line_then_reset] < CONNECT_ATTEMPT_LIMIT)
    by reflexivity.
  split; [exact H|].
  exact (reader_yields_session_lines _ H).
Defined.

(** X19 at three failed connects. *)
Lemma reader_sleeps_at_most_45_witness :
  errors (repeat ConnectFails 3) < CONNECT_ATTEMPT_LIMIT
  /\ slept (fst (connect_to_dump1090 (repeat ConnectFails 3))) = 15.
Proof.
  assert (H : errors (repeat ConnectFails 3) < CONNECT_ATTEMPT_LIMIT) by reflexivity.
  split; [exact H|].
  exact (proj2 (reader_sleeps_at_most_45 _) H).
Defined.
